(** * MeshCore GUI: dedup caches, event reconciliation, bot trigger, routes

    A shallow embedding of [meshcore_gui/ble_worker.py] (the BLE worker's
    dedup caches, its two event callbacks and the keyword bot) and of
    [meshcore_gui/route_builder.py] (route reconstruction), together with
    the constants of [meshcore_gui/config.py] they read.

    Conventions of the embedding:
    - Python [str] is [string], holding the UTF-8 encoding of the text:
      a character outside ASCII is two to four bytes.  [strip] and
      [rstrip] remove every character that Python's [str.isspace]
      accepts, the ones outside ASCII included.  [upper] and [lower]
      change the ASCII letters and nothing else.  The code applies them
      to hex strings, and to texts in which it then looks for the words
      [test], [ping], [help] and [bot]; Python's [lower] maps no
      character outside ASCII to text that could complete one of these
      words (only U+212A goes to an ASCII letter, k, and U+0130 to an i
      followed by a combining dot), so these searches come out the same.
      Lengths and slices count bytes; the code takes them of hex strings.
    - Python [int] is [Z]; [str(int)] is stdpp's [pretty].
    - Python [float] is the IEEE binary64 type [float] of [PrimFloat].
    - A [set] of strings is a [gset string]; a [list] is a [list]; a
      [dict] whose iteration order matters is an association list.
    - A key that a [dict] may lack is an [option] field of a record.
    - The callbacks mutate the worker; here they are functions from the
      worker state to the worker state.  What a callback reads from the
      outside world (clock, GUI flag) is handed to it as an [env]. *)

From Stdlib Require Import PrimFloat SpecFloat FloatOps FloatAxioms Ascii.
From stdpp Require Import gmap strings list pretty.


(* ================================================================== *)
(** * Python string primitives *)
(* ================================================================== *)

Module Py.

(** [chr(cp)]: the character with code point [cp], below U+10000, in
    UTF-8. *)
Definition chr (cp : N) : string :=
  if (cp <? 128)%N then String (ascii_of_N cp) ""
  else if (cp <? 2048)%N then
    String (ascii_of_N (192 + cp / 64))
      (String (ascii_of_N (128 + cp mod 64)) "")
  else
    String (ascii_of_N (224 + cp / 4096))
      (String (ascii_of_N (128 + (cp / 64) mod 64))
         (String (ascii_of_N (128 + cp mod 64)) "")).

(** The code points of the characters for which [str.isspace] holds:
    TAB, LF, VT, FF, CR, the separators FS, GS, RS, US, the space, NEL
    (U+0085), the no-break space (U+00A0), the Ogham space mark (U+1680),
    the spaces U+2000 to U+200A, the line and paragraph separators
    (U+2028, U+2029), the narrow no-break space (U+202F), the medium
    mathematical space (U+205F) and the ideographic space (U+3000). *)
Definition whitespace : list N :=
  [9; 10; 11; 12; 13; 28; 29; 30; 31; 32; 133; 160; 5760;
   8192; 8193; 8194; 8195; 8196; 8197; 8198; 8199; 8200; 8201; 8202;
   8232; 8233; 8239; 8287; 12288]%N.

(** [c.isspace()] for one character [c], given in UTF-8. *)
Definition is_space (c : string) : bool :=
  bool_decide (c ∈ chr <$> whitespace).

Definition lower_char (c : ascii) : ascii :=
  let n := N_of_ascii c in
  if ((65 <=? n) && (n <=? 90))%N then ascii_of_N (n + 32) else c.

Definition upper_char (c : ascii) : ascii :=
  let n := N_of_ascii c in
  if ((97 <=? n) && (n <=? 122))%N then ascii_of_N (n - 32) else c.

Fixpoint map_chars (f : ascii → ascii) (s : string) : string :=
  match s with
  | "" => ""
  | String c s' => String (f c) (map_chars f s')
  end.

(** [s.lower()] and [s.upper()] *)
Definition lower : string → string := map_chars lower_char.
Definition upper : string → string := map_chars upper_char.

(** [len(s)] *)
Definition len (s : string) : Z := Z.of_nat (String.length s).

(** [bool(s)]: a string is truthy when it is not empty. *)
Definition truthy (s : string) : bool :=
  match s with "" => false | _ => true end.

(** [s.startswith(p)] *)
Fixpoint startswith (p s : string) : bool :=
  match p, s with
  | "", _ => true
  | String a p', String b s' => bool_decide (a = b) && startswith p' s'
  | String _ _, "" => false
  end.

(** [s.endswith(suf)]: some suffix of [s] is [suf]. *)
Fixpoint endswith (suf s : string) : bool :=
  bool_decide (s = suf) ||
  match s with
  | "" => false
  | String _ s' => endswith suf s'
  end.

(** [needle in hay] *)
Fixpoint contains (needle hay : string) : bool :=
  startswith needle hay ||
  match hay with
  | "" => false
  | String _ hay' => contains needle hay'
  end.

(** [s[n:]] for [0 <= n] *)
Fixpoint drop (n : nat) (s : string) : string :=
  match n, s with
  | O, _ => s
  | S n', String _ s' => drop n' s'
  | S _, "" => ""
  end.

(** [s[i:i+m]] for [0 <= i], clipped at the end of [s] as Python does *)
Definition slice (i m : nat) (s : string) : string :=
  String.substring i m s.

(** [s.split(sep, 1)] when [sep in s]: the text before and after the
    first occurrence of [sep]; [None] when [sep] does not occur. *)
Fixpoint split_once (sep s : string) : option (string * string) :=
  if startswith sep s then Some ("", drop (String.length sep) s)
  else match s with
       | "" => None
       | String c s' =>
           match split_once sep s' with
           | Some (a, b) => Some (String c a, b)
           | None => None
           end
       end.

(** [s.lstrip()]: the white-space characters at the start of [s], of
    one, two or three bytes each, are removed. *)
Fixpoint lstrip (s : string) : string :=
  match s with
  | "" => ""
  | String a s1 =>
      if is_space (String a "") then lstrip s1
      else
        match s1 with
        | "" => s
        | String b s2 =>
            if is_space (String a (String b "")) then lstrip s2
            else
              match s2 with
              | "" => s
              | String c s3 =>
                  if is_space (String a (String b (String c "")))
                  then lstrip s3
                  else s
              end
        end
  end.

(** [s.rstrip()]: the white-space characters at the end of [s] are
    removed.  Going through [s] from its end, what is left of [s'] after
    stripping is put behind [c]; when that is one white-space character
    (its last bytes can only be left of [s'] when [c] starts it), it goes
    too. *)
Fixpoint rstrip (s : string) : string :=
  match s with
  | "" => ""
  | String c s' =>
      let r := String c (rstrip s') in
      if is_space r then "" else r
  end.

(** [s.strip()] *)
Definition strip (s : string) : string := rstrip (lstrip s).

(** [sep.join(parts)] *)
Definition join (sep : string) (parts : list string) : string :=
  String.concat sep parts.

(** [str(n)] for an [int] *)
Definition str_int (n : Z) : string := pretty n.

(** [str(x)] / [f"{x}"] for a value that is an [int] or [None] *)
Definition str_opt_int (x : option Z) : string :=
  match x with
  | Some n => str_int n
  | None => "None"
  end.

(** [range(0, stop, 2)] *)
Definition range_step2 (stop : Z) : list nat :=
  (λ k, 2 * k) <$> seq 0 (Z.to_nat ((stop + 1) / 2)).

(** [template.format] with keyword arguments [kw], for the format strings the configuration
    uses: literal text and named replacement fields [{name}], with no
    conversion, no format spec and no doubled braces.  [field] holds
    the (reversed) name of the field being read, if any.  [None] stands
    for the exception Python raises (unknown field, stray brace). *)
Fixpoint format_go (kw : list (string * string)) (field : option string)
    (s : string) : option string :=
  match s with
  | "" => match field with None => Some "" | Some _ => None end
  | String c s' =>
      match field with
      | None =>
          if bool_decide (c = "{"%char) then format_go kw (Some "") s'
          else if bool_decide (c = "}"%char) then None
          else String c <$> format_go kw None s'
      | Some f =>
          if bool_decide (c = "}"%char) then
            match list_find (λ kv, kv.1 = String.rev f) kw with
            | Some (_, (_, v)) => String.app v <$> format_go kw None s'
            | None => None
            end
          else format_go kw (Some (String c f)) s'
      end
  end.

Definition format (template : string) (kw : list (string * string))
    : option string :=
  format_go kw None template.

(** [bool(x)] and [x != 0] for a float *)
Definition float_truthy (x : float) : bool := negb (PrimFloat.eqb x 0).

End Py.

(* ================================================================== *)
(** * config.py *)
(* ================================================================== *)

(** Channel index the bot listens on. *)
Definition BOT_CHANNEL : Z := 1.

(** Display name prepended to every bot reply. *)
Definition BOT_NAME : string := "Zwolle Bot".

(** Minimum seconds between two bot replies. *)
Definition BOT_COOLDOWN_SECONDS : float := 5%float.

(** Keyword to reply template, in the order the dict literal lists them. *)
Definition BOT_KEYWORDS : list (string * string) :=
  [ ("test", "{bot}: {sender}, rcvd | SNR {snr} | {path}");
    ("ping", "{bot}: Pong!");
    ("help", "{bot}: test, ping, help") ].

(** ble_worker.py: maximum number of keys kept in a dedup cache. *)
Definition _SEEN_HASHES_MAX : nat := 200.

(* ================================================================== *)
(** * Data model *)
(* ================================================================== *)

(** A contact record of the snapshot, with the keys the code reads by
    [contact.get(key, default)].  [c_other_keys] says whether the dict
    has further keys: a dict is truthy exactly when it is not empty. *)
Record contact := Contact {
  c_adv_name : option string;
  c_adv_lat : option float;
  c_adv_lon : option float;
  c_type : option Z;
  c_out_path : option string;
  c_out_path_len : option Z;
  c_other_keys : bool;
}.

(** [bool(contact)] *)
Definition contact_truthy (c : contact) : bool :=
  c_other_keys c
  || bool_decide (is_Some (c_adv_name c))
  || bool_decide (is_Some (c_adv_lat c))
  || bool_decide (is_Some (c_adv_lon c))
  || bool_decide (is_Some (c_type c))
  || bool_decide (is_Some (c_out_path c))
  || bool_decide (is_Some (c_out_path_len c)).

(** The [ContactLookup] protocol of [meshcore_gui.protocols], implemented
    by the shared data store: the two lookups the worker and the route
    builder call. *)
Class ContactLookup := {
  get_contact_by_prefix : string → option contact;
  get_contact_by_name : string → option (string * contact);
}.

(** Modelled from the spec: the [PayloadType] enum of the packet parser,
    of which only [GroupText] is message-bearing here. *)
Inductive PayloadType :=
  | GroupText
  | OtherPayload (tag : Z).

Global Instance PayloadType_eq_dec : EqDecision PayloadType.
Proof. solve_decision. Defined.

(** Modelled from the spec: the record the packet parser returns for a raw
    frame. *)
Record DecodedPacket := {
  d_payload_type : PayloadType;
  d_is_decrypted : bool;
  d_message_hash : string;
  d_sender : string;
  d_text : string;
  d_channel_idx : Z;
  d_path_length : Z;
  d_path_hashes : list string;
}.

(** The packet parser's [PacketDecoder.decode]: [None] when the frame does
    not decode. *)
Class PacketDecoder := decode : string → option DecodedPacket.

(** Python's [f"{snr:.1f}"] on a float. *)
Class FloatFormat := format_1f : float → string.

Inductive direction := DirIn | DirOut.

(** A message dict as handed to [shared.add_message] and read back by the
    route builder. *)
Record message := {
  m_time : string;
  m_sender : string;
  m_sender_full : option string;
  m_text : string;
  m_channel : option Z;
  m_direction : direction;
  m_snr : option float;
  m_path_len : option Z;
  m_sender_pubkey : string;
  m_path_hashes : list string;
  m_message_hash : option string;
}.

(** An entry handed to [shared.add_rx_log]. *)
Record rx_log_entry := {
  rl_time : string;
  rl_snr : float;
  rl_rssi : float;
  rl_payload_type : string;
  rl_hops : Z;
}.

(** A command dict handed to [shared.put_command]. *)
Record command := {
  cmd_action : string;
  cmd_channel : Z;
  cmd_text : string;
  cmd_bot : bool;
}.

(** Payload of an [RX_LOG_DATA] event. *)
Record rx_log_payload := {
  rx_snr : option float;
  rx_rssi : option float;
  rx_payload_type : option string;
  rx_path_len : option Z;
  rx_payload : option string;
}.

(** Payload of a [CHANNEL_MSG_RECV] event. *)
Record channel_payload := {
  cp_message_hash : option string;
  cp_text : option string;
  cp_channel_idx : option Z;
  cp_SNR : option float;
  cp_snr : option float;
  cp_path_len : option Z;
}.

(** What one callback run reads from outside the worker: [time.time()],
    the two [datetime.now().strftime('%H:%M:%S')] readings (the first for
    the RX log entry, the second for the message) and
    [shared.is_bot_enabled()]. *)
Record env := {
  time_time : float;
  strftime_log : string;
  strftime_msg : string;
  is_bot_enabled : bool;
}.

(** The worker: its own fields, and what it has written to the shared
    store so far (messages, RX log entries, queued commands), oldest
    first. *)
Record worker := Worker {
  _bot_last_reply : float;
  _seen_hashes : gset string;
  _seen_hashes_order : list string;
  _seen_content : gset string;
  _seen_content_order : list string;
  messages : list message;
  rx_log : list rx_log_entry;
  commands : list command;
}.

(** [BLEWorker.__init__] *)
Definition init : worker :=
  Worker 0%float ∅ [] ∅ [] [] [] [].

Definition set_hash_cache (c : gset string * list string) (w : worker) :=
  Worker (_bot_last_reply w) c.1 c.2 (_seen_content w)
         (_seen_content_order w) (messages w) (rx_log w) (commands w).

Definition set_content_cache (c : gset string * list string) (w : worker) :=
  Worker (_bot_last_reply w) (_seen_hashes w) (_seen_hashes_order w)
         c.1 c.2 (messages w) (rx_log w) (commands w).

Definition add_message (m : message) (w : worker) :=
  Worker (_bot_last_reply w) (_seen_hashes w) (_seen_hashes_order w)
         (_seen_content w) (_seen_content_order w)
         (messages w ++ [m]) (rx_log w) (commands w).

Definition add_rx_log (r : rx_log_entry) (w : worker) :=
  Worker (_bot_last_reply w) (_seen_hashes w) (_seen_hashes_order w)
         (_seen_content w) (_seen_content_order w)
         (messages w) (rx_log w ++ [r]) (commands w).

Definition queue_reply (t : float) (c : command) (w : worker) :=
  Worker t (_seen_hashes w) (_seen_hashes_order w)
         (_seen_content w) (_seen_content_order w)
         (messages w) (rx_log w) (commands w ++ [c]).

(* ================================================================== *)
(** * ble_worker.py: deduplication *)
(* ================================================================== *)

(** The eviction loop shared by [_mark_seen] and [_mark_content_seen]:
    [while len(order) > _SEEN_HASHES_MAX: oldest = order.pop(0);
    seen.discard(oldest)]. *)
Fixpoint evict (seen : gset string) (order : list string)
    : gset string * list string :=
  match order with
  | [] => (seen, order)
  | oldest :: rest =>
      if decide (_SEEN_HASHES_MAX < length order)
      then evict (seen ∖ {[oldest]}) rest
      else (seen, order)
  end.

(** The body shared by [_mark_seen] and [_mark_content_seen], on the pair
    of a membership set and its order list. *)
Definition mark (key : string) (c : gset string * list string)
    : gset string * list string :=
  if decide (key ∈ c.1) then c
  else evict ({[key]} ∪ c.1) (c.2 ++ [key]).

Definition _mark_seen (message_hash : string) (w : worker) : worker :=
  set_hash_cache (mark message_hash (_seen_hashes w, _seen_hashes_order w)) w.

(** The content key [f"{channel}:{sender}:{text}"]. *)
Definition content_key (sender : string) (channel : option Z) (text : string)
    : string :=
  Py.str_opt_int channel +:+ ":" +:+ sender +:+ ":" +:+ text.

Definition _mark_content_seen (sender : string) (channel : option Z)
    (text : string) (w : worker) : worker :=
  set_content_cache
    (mark (content_key sender channel text)
          (_seen_content w, _seen_content_order w)) w.

Definition _is_seen (message_hash : string) (w : worker) : bool :=
  bool_decide (message_hash ∈ _seen_hashes w).

Definition _is_content_seen (sender : string) (channel : option Z)
    (text : string) (w : worker) : bool :=
  bool_decide (content_key sender channel text ∈ _seen_content w).

(* ================================================================== *)
(** * ble_worker.py: the keyword bot *)
(* ================================================================== *)

(** The test [h and len(h) >= 2] applied to a hop hash. *)
Definition hop_hash_ok (h : string) : bool :=
  Py.truthy h && bool_decide (2 ≤ Py.len h)%Z.

(** [BLEWorker._format_path] *)
Definition _format_path (path_len : Z) (path_hashes : option (list string))
    : string :=
  if bool_decide (path_len = 0%Z) then "path(0)"
  else
    match path_hashes with
    | None | Some [] => "path(" +:+ Py.str_int path_len +:+ ")"
    | Some hashes =>
        let hop_names := Py.upper <$> List.filter hop_hash_ok hashes in
        match hop_names with
        | [] => "path(" +:+ Py.str_int path_len +:+ ")"
        | _ => "path(" +:+ Py.str_int path_len +:+ "); "
                 +:+ Py.join ">" hop_names
        end
    end.

(** Guard 6: the template of the first configured keyword that occurs in
    the lower-cased text. *)
Definition matched_template (text_lower : string) : option string :=
  snd <$> List.find (λ kv, Py.contains kv.1 text_lower) BOT_KEYWORDS.

(** Guard 3: the sender is the local echo, or the text starts with the
    bot's own name. *)
Definition is_own_message (sender text : string) : bool :=
  bool_decide (sender = "Me")
  || (Py.truthy text && Py.startswith BOT_NAME text).

(** Guard 4: the sender's name ends with [bot]. *)
Definition is_other_bot (sender : string) : bool :=
  Py.truthy sender && Py.endswith "bot" (Py.lower (Py.rstrip sender)).

(** Guard 5: the cooldown is still running at time [now]. *)
Definition cooldown_active (now last_reply : float) : bool :=
  (now - last_reply <? BOT_COOLDOWN_SECONDS)%float.

(** The reply text: [matched_template.format(bot=..., sender=..., snr=...,
    path=...)]. *)
Definition bot_reply `{!FloatFormat} (template sender : string)
    (snr : option float) (path_len : Z) (path_hashes : option (list string))
    : option string :=
  let path_str := _format_path path_len path_hashes in
  let snr_str := match snr with Some x => format_1f x | None => "?" end in
  Py.format template
    [ ("bot", BOT_NAME);
      ("sender", if Py.truthy sender then sender else "?");
      ("snr", snr_str);
      ("path", path_str) ].

(** [BLEWorker._bot_check_and_queue].  Were [format] to raise, the
    exception would leave the method before the timestamp is updated and
    the command queued; that is the [None] branch. *)
Definition _bot_check_and_queue `{!FloatFormat} (e : env)
    (sender text : string) (channel_idx : option Z) (snr : option float)
    (path_len : Z) (path_hashes : option (list string)) (w : worker)
    : worker :=
  if negb (is_bot_enabled e) then w
  else if negb (bool_decide (channel_idx = Some BOT_CHANNEL)) then w
  else if is_own_message sender text then w
  else if is_other_bot sender then w
  else
    let now := time_time e in
    if cooldown_active now (_bot_last_reply w) then w
    else
      match matched_template (Py.lower text) with
      | None => w
      | Some template =>
          match bot_reply template sender snr path_len path_hashes with
          | None => w
          | Some reply =>
              queue_reply now
                {| cmd_action := "send_message";
                   cmd_channel := BOT_CHANNEL;
                   cmd_text := reply;
                   cmd_bot := true |} w
          end
      end.

(* ================================================================== *)
(** * ble_worker.py: event callbacks *)
(* ================================================================== *)

(** The sender's public key, looked up by contact name. *)
Definition lookup_sender_pubkey `{!ContactLookup} (sender : string) : string :=
  if Py.truthy sender then
    match get_contact_by_name sender with
    | Some (sender_pubkey, _) => sender_pubkey
    | None => ""
    end
  else "".

(** The entry [_on_rx_log] adds to the RX log display. *)
Definition rx_entry (e : env) (payload : rx_log_payload) : rx_log_entry :=
  {| rl_time := strftime_log e;
     rl_snr := default 0%float (rx_snr payload);
     rl_rssi := default 0%float (rx_rssi payload);
     rl_payload_type := default "?" (rx_payload_type payload);
     rl_hops := default 0%Z (rx_path_len payload) |}.

(** The message dict [_on_rx_log] publishes for a decoded packet. *)
Definition rx_message `{!ContactLookup} (e : env) (payload : rx_log_payload)
    (decoded : DecodedPacket) : message :=
  {| m_time := strftime_msg e;
     m_sender := d_sender decoded;
     m_sender_full := None;
     m_text := d_text decoded;
     m_channel := Some (d_channel_idx decoded);
     m_direction := DirIn;
     m_snr := rx_snr payload;
     m_path_len := Some (d_path_length decoded);
     m_sender_pubkey := lookup_sender_pubkey (d_sender decoded);
     m_path_hashes := d_path_hashes decoded;
     m_message_hash := Some (d_message_hash decoded) |}.

(** Only decrypted GroupText packets are processed as messages. *)
Definition is_message (decoded : DecodedPacket) : bool :=
  bool_decide (d_payload_type decoded = GroupText) && d_is_decrypted decoded.

(** [BLEWorker._on_rx_log] *)
Definition _on_rx_log `{!ContactLookup, !PacketDecoder, !FloatFormat}
    (e : env) (payload : rx_log_payload) (w : worker) : worker :=
  let w := add_rx_log (rx_entry e payload) w in
  let payload_hex := default "" (rx_payload payload) in
  if negb (Py.truthy payload_hex) then w
  else
    match decode payload_hex with
    | None => w
    | Some decoded =>
        if is_message decoded then
          let w := _mark_seen (d_message_hash decoded) w in
          let w :=
            _mark_content_seen (d_sender decoded)
              (Some (d_channel_idx decoded)) (d_text decoded) w in
          let w := add_message (rx_message e payload decoded) w in
          _bot_check_and_queue e (d_sender decoded) (d_text decoded)
            (Some (d_channel_idx decoded)) (rx_snr payload)
            (d_path_length decoded) (Some (d_path_hashes decoded)) w
        else w
    end.

(** The sender and body of a channel text [SenderName: message body]: the
    text is split at the first [": "]; without one the whole text is the
    body and the sender is empty. *)
Definition split_sender (raw_text : string) : string * string :=
  if Py.contains ": " raw_text then
    match Py.split_once ": " raw_text with
    | Some (name_part, body_part) => (Py.strip name_part, body_part)
    | None => ("", raw_text)
    end
  else ("", raw_text).

(** [payload.get('SNR') or payload.get('snr')] *)
Definition channel_snr (payload : channel_payload) : option float :=
  match cp_SNR payload with
  | Some x => if Py.float_truthy x then Some x else cp_snr payload
  | None => cp_snr payload
  end.

(** The message dict [_on_channel_msg] publishes. *)
Definition channel_message `{!ContactLookup} (e : env)
    (payload : channel_payload) : message :=
  let '(sender, msg_text) := split_sender (default "" (cp_text payload)) in
  {| m_time := strftime_msg e;
     m_sender := sender;
     m_sender_full := None;
     m_text := msg_text;
     m_channel := cp_channel_idx payload;
     m_direction := DirIn;
     m_snr := channel_snr payload;
     m_path_len := Some (default 0%Z (cp_path_len payload));
     m_sender_pubkey := lookup_sender_pubkey sender;
     m_path_hashes := [];
     m_message_hash := Some (default "" (cp_message_hash payload)) |}.

(** [BLEWorker._on_channel_msg] *)
Definition _on_channel_msg `{!ContactLookup, !FloatFormat}
    (e : env) (payload : channel_payload) (w : worker) : worker :=
  let msg_hash := default "" (cp_message_hash payload) in
  if Py.truthy msg_hash && _is_seen msg_hash w then w
  else
    let raw_text := default "" (cp_text payload) in
    let '(sender, msg_text) := split_sender raw_text in
    let ch_idx := cp_channel_idx payload in
    if _is_content_seen sender ch_idx msg_text w then w
    else
      let w := add_message (channel_message e payload) w in
      _bot_check_and_queue e sender msg_text (cp_channel_idx payload)
        (channel_snr payload) (default 0%Z (cp_path_len payload)) None w.

(** The two notifications the transport delivers for a transmission. *)
Inductive event :=
  | RxLogData (e : env) (payload : rx_log_payload)
  | ChannelMsgRecv (e : env) (payload : channel_payload).

Definition handle `{!ContactLookup, !PacketDecoder, !FloatFormat}
    (w : worker) (ev : event) : worker :=
  match ev with
  | RxLogData e payload => _on_rx_log e payload w
  | ChannelMsgRecv e payload => _on_channel_msg e payload w
  end.

(** The worker after the callbacks have run on [evs], in arrival order. *)
Definition run `{!ContactLookup, !PacketDecoder, !FloatFormat}
    (w : worker) (evs : list event) : worker :=
  foldl handle w evs.

(* ================================================================== *)
(** * route_builder.py *)
(* ================================================================== *)

(** A sender or hop node dict [{name, lat, lon, type, pubkey}]. *)
Record node := {
  n_name : string;
  n_lat : float;
  n_lon : float;
  n_type : Z;
  n_pubkey : string;
}.

(** The local node dict [{name, lat, lon}]. *)
Record self_node := {
  sn_name : string;
  sn_lat : float;
  sn_lon : float;
}.

(** The snapshot dict: the keys [build] reads.  [contacts] maps a public
    key to its contact, in the dict's iteration order. *)
Record snapshot := {
  s_name : string;
  s_adv_lat : float;
  s_adv_lon : float;
  s_contacts : list (string * contact);
}.

(** The route dict [build] returns. *)
Record route := {
  r_sender : option node;
  r_self_node : self_node;
  r_path_nodes : list node;
  r_snr : option float;
  r_msg_path_len : Z;
  r_has_locations : bool;
  r_path_source : string;
}.

(** [RouteBuilder._find_contact_by_pubkey_hash] *)
Definition _find_contact_by_pubkey_hash (hash_hex : string)
    (contacts : list (string * contact)) : option contact :=
  let hash_hex := Py.lower hash_hex in
  snd <$> List.find (λ kv, Py.startswith hash_hex (Py.lower kv.1)) contacts.

(** The node of a hop whose contact was found. *)
Definition hop_node (hop_hash : string) (hop_contact : contact) : node :=
  {| n_name := default ("0x" +:+ hop_hash) (c_adv_name hop_contact);
     n_lat := default 0%float (c_adv_lat hop_contact);
     n_lon := default 0%float (c_adv_lon hop_contact);
     n_type := default 0%Z (c_type hop_contact);
     n_pubkey := hop_hash |}.

(** The node of a hop that matches no contact. *)
Definition placeholder_node (hop_hash : string) : node :=
  {| n_name := "-";
     n_lat := 0%float;
     n_lon := 0%float;
     n_type := 0%Z;
     n_pubkey := hop_hash |}.

(** One turn of the loop of [_resolve_hashes] for a hash that passed the
    length test: [if hop_contact:] holds for a contact that was found and
    is not an empty dict. *)
Definition resolve_hop (hop_hash : string)
    (contacts : list (string * contact)) : node :=
  match _find_contact_by_pubkey_hash hop_hash contacts with
  | Some hop_contact =>
      if contact_truthy hop_contact then hop_node hop_hash hop_contact
      else placeholder_node hop_hash
  | None => placeholder_node hop_hash
  end.

(** [RouteBuilder._resolve_hashes] *)
Fixpoint _resolve_hashes (hashes : list string)
    (contacts : list (string * contact)) : list node :=
  match hashes with
  | [] => []
  | hop_hash :: hashes' =>
      if negb (Py.truthy hop_hash) || bool_decide (Py.len hop_hash < 2)%Z
      then _resolve_hashes hashes' contacts
      else resolve_hop hop_hash contacts :: _resolve_hashes hashes' contacts
  end.

(** The hop hashes [_parse_out_path] cuts out of [out_path]. *)
Definition out_path_hashes (out_path : string) (out_path_len : Z)
    : list string :=
  let hop_hex_len := 2 in
  List.filter
    (λ hop_hash, Py.truthy hop_hash && bool_decide (Py.len hop_hash = 2%Z))
    ((λ i, Py.slice i hop_hex_len out_path)
       <$> Py.range_step2 (Py.len out_path `min` (out_path_len * 2))%Z).

(** [RouteBuilder._parse_out_path] *)
Definition _parse_out_path (out_path : string) (out_path_len : Z)
    (contacts : list (string * contact)) : list node :=
  _resolve_hashes (out_path_hashes out_path out_path_len) contacts.

(** The sender dict built from a contact. *)
Definition sender_node (pubkey : string) (c : contact) : node :=
  {| n_name := default (Py.slice 0 8 pubkey) (c_adv_name c);
     n_lat := default 0%float (c_adv_lat c);
     n_lon := default 0%float (c_adv_lon c);
     n_type := default 0%Z (c_type c);
     n_pubkey := pubkey |}.

(** The first part of [build]: the sender dict and the [contact] variable
    after the sender lookup. *)
Definition lookup_sender `{!ContactLookup} (msg : message)
    : option node * option contact :=
  let pubkey := m_sender_pubkey msg in
  if Py.truthy pubkey then
    match get_contact_by_prefix pubkey with
    | Some c =>
        if contact_truthy c then (Some (sender_node pubkey c), Some c)
        else (None, Some c)
    | None => (None, None)
    end
  else
    let sender_name :=
      match m_sender_full msg with
      | Some full => if Py.truthy full then full else m_sender msg
      | None => m_sender msg
      end in
    if Py.truthy sender_name then
      match get_contact_by_name sender_name with
      | Some (pubkey, contact_data) =>
          (Some (sender_node pubkey contact_data), Some contact_data)
      | None => (None, None)
      end
    else (None, None).

(** The second part of [build]: the path nodes and where they came from,
    in priority order. *)
Definition resolve_path (msg : message) (sender_contact : option contact)
    (contacts : list (string * contact)) : list node * string :=
  let rx_hashes := m_path_hashes msg in
  match rx_hashes with
  | _ :: _ => (_resolve_hashes rx_hashes contacts, "rx_log")
  | [] =>
      match sender_contact with
      | Some c =>
          if contact_truthy c then
            let out_path := default "" (c_out_path c) in
            let out_path_len := default 0%Z (c_out_path_len c) in
            if Py.truthy out_path
               && negb (bool_decide (out_path_len = 0%Z))
               && bool_decide (0 < out_path_len)%Z
            then (_parse_out_path out_path out_path_len contacts,
                  "contact_out_path")
            else ([], "none")
          else ([], "none")
      | None => ([], "none")
      end
  end.

(** [p.get('lat', 0) != 0 or p.get('lon', 0) != 0] *)
Definition has_location (lat lon : float) : bool :=
  Py.float_truthy lat || Py.float_truthy lon.

(** [RouteBuilder.build] *)
Definition build `{!ContactLookup} (msg : message) (data : snapshot) : route :=
  let self :=
    {| sn_name := if Py.truthy (s_name data) then s_name data else "Me";
       sn_lat := s_adv_lat data;
       sn_lon := s_adv_lon data |} in
  let '(sender, sender_contact) := lookup_sender msg in
  let '(path_nodes, path_source) :=
    resolve_path msg sender_contact (s_contacts data) in
  let all_points :=
    ([(sn_lat self, sn_lon self)]
     ++ match sender with
        | Some s => [(n_lat s, n_lon s)]
        | None => []
        end
     ++ ((λ p, (n_lat p, n_lon p)) <$> path_nodes)) in
  {| r_sender := sender;
     r_self_node := self;
     r_path_nodes := path_nodes;
     r_snr := m_snr msg;
     r_msg_path_len := default 0%Z (m_path_len msg);
     r_has_locations :=
       existsb (λ p, has_location p.1 p.2) all_points;
     r_path_source := path_source |}.

(* ================================================================== *)
(** * ble_worker.py: direct messages *)
(* ================================================================== *)






(* ================================================================== *)
(** * ble_worker.py: connection, loading and commands *)
(* ================================================================== *)

(** The coroutines of the worker are modelled over a session that logs,
    in order, every call the worker makes on its three collaborators: the
    transport, the shared store and the packet decoder.  What the model
    takes for granted: the calls on the shared store and on the decoder
    return without raising; the [MeshCore] object, when there is one, is
    truthy; [asyncio.sleep], [print] and [debug_print] have no effect the
    worker can see and are left out.  The status texts are
    kept as the bytes of the source file. *)

(** config.py: the hardcoded channel table, as pairs of [idx] and
    [name]. *)
Definition CHANNELS_CONFIG : list (Z * string) :=
  [ (0%Z, "Public"); (1%Z, "#test"); (2%Z, "#zwolle"); (3%Z, "RahanSom") ].

(** The calls the worker makes on the transport ([MeshCore] and its
    [commands]). *)
Inductive transport_call :=
  | CreateBle (address : string)
  | Subscribe (event_type : string)
  | StartAutoMessageFetching
  | SendAppstart
  | SendDeviceQuery
  | GetContacts
  | GetChannel (idx : Z)
  | SendChanMsg (channel : Z) (text : string)
  | SendAdvert (flood : bool)
  | SendMsg (pubkey text : string).

(** The payload of a transport event, with the keys the worker reads. *)
Record payload := {
  p_name : option string;
  p_ver : option string;
  p_channel_secret : option (list Byte.byte);
  p_contacts : list (string * contact);
}.

(** What a transport call does: it raises an exception, or returns an
    event of type [ERROR], or returns another event with its payload.
    [create_ble] returns no event but the [MeshCore] object, or [None]
    when no connection was made: for it [Event] stands for the object and
    [Error] for [None]. *)
Inductive response :=
  | Raises (error : string)
  | Error
  | Event (p : payload).

(** The device and radio link: the response to a call, given the calls
    made before it. *)
Class Transport := respond : list transport_call → transport_call → response.

(** The calls the worker makes on the shared store besides [add_message],
    [add_rx_log] and [put_command]. *)
Inductive shared_write :=
  | SetStatus (status : string)
  | SetConnected (connected : bool)
  | UpdateFromAppstart (p : payload)
  | UpdateFromDeviceQuery (p : payload)
  | SetChannels (channels : list (Z * string))
  | SetContacts (p : payload).

(** The calls the worker makes on its packet decoder to load a key. *)
Inductive key_registration :=
  | AddChannelKey (idx : Z) (secret : list Byte.byte)
  | AddChannelKeyFromName (idx : Z) (name : string).

(** The worker with its connection: [mc] says whether [self.mc] is set;
    the three logs list, oldest first, the calls made on the transport,
    on the shared store and on the decoder. *)
Record session := Session {
  sess_worker : worker;
  mc : bool;
  transport_calls : list transport_call;
  shared_writes : list shared_write;
  decoder_keys : list key_registration;
}.

(** A coroutine of the worker: from a session it returns a value, or
    raises an exception, in both cases leaving a session. *)
Inductive result (A : Type) :=
  | Done (a : A) (s : session)
  | Raise (error : string) (s : session).
Arguments Done {A} a s.
Arguments Raise {A} error s.

Definition io (A : Type) : Type := session → result A.

(** [return a] *)
Definition ret {A} (a : A) : io A := λ s, Done a s.

Global Instance io_bind : MBind io := λ A B k m s,
  match m s with
  | Done a s' => k a s'
  | Raise error s' => Raise error s'
  end.

(** The session a coroutine leaves. *)
Definition final {A} (r : result A) : session :=
  match r with
  | Done _ s => s
  | Raise _ s => s
  end.

(** [try: body except Exception as e: handler(e)] *)
Definition try_except {A} (body : io A) (handler : string → io A) : io A :=
  λ s,
    match body s with
    | Done a s' => Done a s'
    | Raise error s' => handler error s'
    end.

(** A call on the transport: [None] stands for an [ERROR] event. *)
Definition call `{!Transport} (c : transport_call) : io (option payload) :=
  λ s,
    let s' :=
      Session (sess_worker s) (mc s) (transport_calls s ++ [c])
              (shared_writes s) (decoder_keys s) in
    match respond (transport_calls s) c with
    | Raises error => Raise error s'
    | Error => Done None s'
    | Event p => Done (Some p) s'
    end.

Definition write (x : shared_write) : io unit :=
  λ s,
    Done tt (Session (sess_worker s) (mc s) (transport_calls s)
                     (shared_writes s ++ [x]) (decoder_keys s)).

Definition register_key (k : key_registration) : io unit :=
  λ s,
    Done tt (Session (sess_worker s) (mc s) (transport_calls s)
                     (shared_writes s) (decoder_keys s ++ [k])).

Definition publish (m : message) : io unit :=
  λ s,
    Done tt (Session (add_message m (sess_worker s)) (mc s)
                     (transport_calls s) (shared_writes s) (decoder_keys s)).

(** [self.mc = value]: [connected] says whether the value is the
    [MeshCore] object rather than [None]. *)
Definition set_mc (connected : bool) : io unit :=
  λ s,
    Done tt (Session (sess_worker s) connected (transport_calls s)
                     (shared_writes s) (decoder_keys s)).

(** [raise] *)
Definition raise {A} (error : string) : io A := λ s, Raise error s.

(** The text of the [AttributeError] that [self.mc.subscribe] raises
    while [self.mc] is [None]. *)
Definition none_has_no_subscribe : string :=
  "'NoneType' object has no attribute 'subscribe'".

(** [self.mc.subscribe(event_type, callback)]: while [self.mc] is [None]
    the attribute lookup raises and the transport is not reached. *)
Definition subscribe `{!Transport} (event_type : string)
    : io (option payload) :=
  λ s,
    if mc s then call (Subscribe event_type) s
    else raise none_has_no_subscribe s.

(** The loop [for i in range(n): r = await call(); if r.type != ERROR:
    on_ok(r.payload); break], which [_load_data] runs twice. *)
Fixpoint retry `{!Transport} (n : nat) (c : transport_call)
    (on_ok : payload → io unit) : io unit :=
  match n with
  | O => ret tt
  | S n' =>
      r ← call c;
      match r with
      | Some p => on_ok p
      | None => retry n' c on_ok
      end
  end.

(** The status texts the worker shows. *)
Definition status_device_info : string := "ðŸ”„ Device info...".
Definition status_channels : string := "ðŸ”„ Channels...".
Definition status_contacts : string := "ðŸ”„ Contacts...".
Definition status_channel_keys : string := "ðŸ”„ Channel keys...".
Definition status_connected : string := "âœ… Connected".
Definition status_advert_sent : string := "ðŸ“¢ Advert sent".
Definition status_connecting (address : string) : string :=
  "ðŸ”„ Connecting to " +:+ address +:+ "...".
Definition status_failed (error : string) : string :=
  "âŒ " +:+ error.

(** [BLEWorker._load_data] *)
Definition _load_data `{!Transport} : io unit :=
  write (SetStatus status_device_info);;
  retry 5 SendAppstart (λ p, write (UpdateFromAppstart p));;
  retry 5 SendDeviceQuery (λ p, write (UpdateFromDeviceQuery p));;
  write (SetStatus status_channels);;
  write (SetChannels CHANNELS_CONFIG);;
  write (SetStatus status_contacts);;
  r ← call GetContacts;
  match r with
  | Some p => write (SetContacts p)
  | None => ret tt
  end.

(** One attempt of strategy 1 of [_load_channel_keys], the body of its
    [try]: whether the key was loaded from the device. *)
Definition get_channel_key `{!Transport} (idx : Z) : io bool :=
  r ← call (GetChannel idx);
  match r with
  | Some p =>
      match p_channel_secret p with
      | Some secret =>
          if bool_decide (secret ≠ []) && bool_decide (16 ≤ length secret)
          then register_key (AddChannelKey idx (take 16 secret));; ret true
          else ret false
      | None => ret false
      end
  | None => ret false
  end.

(** Strategy 1 of [_load_channel_keys]: up to [attempts] attempts, an
    exception counting as a failed attempt. *)
Fixpoint get_channel_key_retry `{!Transport} (attempts : nat) (idx : Z)
    : io bool :=
  match attempts with
  | O => ret false
  | S attempts' =>
      loaded ← try_except (get_channel_key idx) (λ _, ret false);
      if (loaded : bool) then ret true
      else get_channel_key_retry attempts' idx
  end.

(** The body of the loop of [_load_channel_keys] for one channel. *)
Definition load_channel_key `{!Transport} (ch : Z * string) : io unit :=
  loaded ← get_channel_key_retry 3 ch.1;
  if (loaded : bool) then ret tt
  else register_key (AddChannelKeyFromName ch.1 ch.2).

(** [for x in xs: body(x)] *)
Fixpoint for_each {A} (body : A → io unit) (xs : list A) : io unit :=
  match xs with
  | [] => ret tt
  | x :: xs' => body x;; for_each body xs'
  end.

(** [BLEWorker._load_channel_keys] *)
Definition _load_channel_keys `{!Transport} : io unit :=
  write (SetStatus status_channel_keys);;
  for_each load_channel_key CHANNELS_CONFIG.

(** [BLEWorker._connect] *)
Definition _connect `{!Transport} (address : string) : io unit :=
  write (SetStatus (status_connecting address));;
  try_except
    (created ← call (CreateBle address);
     set_mc (bool_decide (is_Some created));;
     subscribe "CHANNEL_MSG_RECV";;
     subscribe "CONTACT_MSG_RECV";;
     subscribe "RX_LOG_DATA";;
     _load_data;;
     _load_channel_keys;;
     call StartAutoMessageFetching;;
     write (SetConnected true);;
     write (SetStatus status_connected))
    (λ e, write (SetStatus (status_failed e))).

(** A command dict taken from the queue: the keys [_handle_command]
    reads. *)
Record command_dict := {
  cd_action : option string;
  cd_channel : option Z;
  cd_text : option string;
  cd_bot : option bool;
  cd_pubkey : option string;
  cd_contact_name : option string;
}.

(** The dict of a command the bot queued. *)
Definition command_to_dict (c : command) : command_dict :=
  {| cd_action := Some (cmd_action c);
     cd_channel := Some (cmd_channel c);
     cd_text := Some (cmd_text c);
     cd_bot := Some (cmd_bot c);
     cd_pubkey := None;
     cd_contact_name := None |}.

(** The local echo of a sent message: [channel] is [None] for a direct
    message. *)
Definition sent_message (clock text : string) (channel : option Z)
    (pubkey : string) : message :=
  {| m_time := clock;
     m_sender := "Me";
     m_sender_full := None;
     m_text := text;
     m_channel := channel;
     m_direction := DirOut;
     m_snr := None;
     m_path_len := None;
     m_sender_pubkey := pubkey;
     m_path_hashes := [];
     m_message_hash := None |}.

(** [BLEWorker._handle_command]; [clock] is the reading of
    [datetime.now().strftime('%H:%M:%S')]. *)
Definition _handle_command `{!Transport} (clock : string)
    (cmd : command_dict) : io unit :=
  λ s,
    let action := cd_action cmd in
    if bool_decide (action = Some "send_message") then
      let channel := default 0%Z (cd_channel cmd) in
      let text := default "" (cd_text cmd) in
      let is_bot := default false (cd_bot cmd) in
      if Py.truthy text && mc s then
        (call (SendChanMsg channel text);;
         if negb is_bot
         then publish (sent_message clock text (Some channel) "")
         else ret tt) s
      else Done tt s
    else if bool_decide (action = Some "send_advert") then
      if mc s then
        (call (SendAdvert true);;
         write (SetStatus status_advert_sent)) s
      else Done tt s
    else if bool_decide (action = Some "send_dm") then
      let pubkey := default "" (cd_pubkey cmd) in
      let text := default "" (cd_text cmd) in
      if Py.truthy text && Py.truthy pubkey && mc s then
        (call (SendMsg pubkey text);;
         publish (sent_message clock text None pubkey)) s
      else Done tt s
    else if bool_decide (action = Some "refresh") then
      if mc s then _load_data s else Done tt s
    else Done tt s.

(** [BLEWorker._process_commands], on the commands the queue hands out
    before it is empty, each with the clock reading of its handling. *)
Definition _process_commands `{!Transport}
    (queue : list (string * command_dict)) : io unit :=
  for_each (λ c, _handle_command c.1 c.2) queue.

(** The session of a worker that has not connected yet. *)
Definition offline (w : worker) : session := Session w false [] [] [].

(* ================================================================== *)
(** * Notions used to state the properties *)
(* ================================================================== *)

(** The last [n] elements of a list. *)
Definition last_n {A} (n : nat) (l : list A) : list A :=
  drop (length l - n) l.

(** A dedup cache is well formed when its order list has no duplicates,
    its membership set holds exactly the keys of the order list, and it
    is within capacity. *)
Definition cache_wf (c : gset string * list string) : Prop :=
  NoDup c.2 ∧ c.1 = list_to_set c.2 ∧ length c.2 ≤ _SEEN_HASHES_MAX.

Definition hash_cache (w : worker) : gset string * list string :=
  (_seen_hashes w, _seen_hashes_order w).

Definition content_cache (w : worker) : gset string * list string :=
  (_seen_content w, _seen_content_order w).

(** Both caches of the worker are well formed. *)
Definition worker_wf (w : worker) : Prop :=
  cache_wf (hash_cache w) ∧ cache_wf (content_cache w).

(** The worker after [_mark_seen] has been called on each key of [keys],
    in order. *)
Definition mark_seen_all (keys : list string) (w : worker) : worker :=
  foldl (λ w key, _mark_seen key w) w keys.

(** The fallback notification [p] matches the decoded packet [d]: same
    channel index, same derived sender and text, and either no message
    hash or the packet's hash. *)
Definition matches (d : DecodedPacket) (p : channel_payload) : Prop :=
  cp_channel_idx p = Some (d_channel_idx d)
  ∧ split_sender (default "" (cp_text p)) = (d_sender d, d_text d)
  ∧ (cp_message_hash p = None ∨ cp_message_hash p = Some (d_message_hash d)).

(** The raw-frame notification [rx] decodes to the message packet [d]. *)
Definition decodes_to `{!PacketDecoder} (rx : rx_log_payload)
    (d : DecodedPacket) : Prop :=
  ∃ payload_hex,
    rx_payload rx = Some payload_hex
    ∧ Py.truthy payload_hex = true
    ∧ decode payload_hex = Some d
    ∧ is_message d = true.

(** A message passes every guard of the bot except the cooldown. *)
Definition qualifies (e : env) (sender text : string)
    (channel_idx : option Z) : bool :=
  is_bot_enabled e
  && bool_decide (channel_idx = Some BOT_CHANNEL)
  && negb (is_own_message sender text)
  && negb (is_other_bot sender)
  && bool_decide (is_Some (matched_template (Py.lower text))).

(** One invocation of the bot trigger: the environment it reads and its
    arguments. *)
Record bot_call := {
  bc_env : env;
  bc_sender : string;
  bc_text : string;
  bc_channel_idx : option Z;
  bc_snr : option float;
  bc_path_len : Z;
  bc_path_hashes : option (list string);
}.

Definition bot_step `{!FloatFormat} (w : worker) (c : bot_call) : worker :=
  _bot_check_and_queue (bc_env c) (bc_sender c) (bc_text c)
    (bc_channel_idx c) (bc_snr c) (bc_path_len c) (bc_path_hashes c) w.

(** The worker after a sequence of invocations of the bot trigger. *)
Definition bot_run `{!FloatFormat} (w : worker) (calls : list bot_call)
    : worker :=
  foldl bot_step w calls.

(** The invocation passes the guards other than the cooldown. *)
Definition call_qualifies (c : bot_call) : bool :=
  qualifies (bc_env c) (bc_sender c) (bc_text c) (bc_channel_idx c).

(** The cooldown rule in the words of the specification: going through
    the invocations in order, one is answered when it qualifies and the
    time elapsed since the last answered one is not below the cooldown;
    the time of the last answer moves only when an invocation is
    answered.  [last_reply] is the time of the last answer so far. *)
Fixpoint answered (last_reply : float) (calls : list bot_call)
    : list bot_call :=
  match calls with
  | [] => []
  | c :: calls' =>
      let now := time_time (bc_env c) in
      if call_qualifies c
         && negb (now - last_reply <? BOT_COOLDOWN_SECONDS)%float
      then c :: answered now calls'
      else answered last_reply calls'
  end.

(** The string is a sequence of white-space characters, of one, two or
    three bytes each. *)
Fixpoint all_space (s : string) : bool :=
  match s with
  | "" => true
  | String a s1 =>
      Py.is_space (String a "") && all_space s1
      || match s1 with
         | "" => false
         | String b s2 =>
             Py.is_space (String a (String b "")) && all_space s2
             || match s2 with
                | "" => false
                | String c s3 =>
                    Py.is_space (String a (String b (String c "")))
                    && all_space s3
                end
         end
  end.

(** The display name, after its trailing white space, ends with the
    letters b, o, t, each in either case. *)
Definition ends_with_bot (sender : string) : Prop :=
  ∃ (stem : string) (b o t : ascii) (trailing : string),
    sender = stem +:+ String b (String o (String t trailing))
    ∧ (b = "b" ∨ b = "B")%char
    ∧ (o = "o" ∨ o = "O")%char
    ∧ (t = "t" ∨ t = "T")%char
    ∧ all_space trailing = true.

(** The specification's reading of a stored route: the hex string cut
    into groups of two characters, an incomplete last group left out. *)
Fixpoint hop_groups (out_path : string) : list string :=
  match out_path with
  | String a (String b rest) => String a (String b "") :: hop_groups rest
  | _ => []
  end.

(** Every character of the string passes the test. *)
Fixpoint all_chars (P : ascii → bool) (s : string) : bool :=
  match s with
  | "" => true
  | String c s' => P c && all_chars P s'
  end.

(** A character that is neither the colon nor the letter N: the decimal
    digits and the minus sign are such characters. *)
Definition plain_char (c : ascii) : bool :=
  negb (bool_decide (c = ":"%char)) && negb (bool_decide (c = "N"%char)).

(** The environment a notification's callback reads. *)
Definition event_env (ev : event) : env :=
  match ev with
  | RxLogData e _ => e
  | ChannelMsgRecv e _ => e
  end.

(** A command as the bot queues it: a channel message for the bot
    channel, tagged as the bot's, whose text starts with the bot's name. *)
Definition is_bot_command (c : command) : Prop :=
  cmd_action c = "send_message"
  ∧ cmd_channel c = BOT_CHANNEL
  ∧ cmd_bot c = true
  ∧ Py.startswith BOT_NAME (cmd_text c) = true.

(** The text of the bot's reply, spelled out per keyword: the [test]
    reply names the sender, the signal quality and the path; the [ping]
    and [help] replies are fixed texts.  [test] goes before [ping], and
    [ping] before [help]. *)
Definition expected_reply `{!FloatFormat} (sender text : string)
    (snr : option float) (path_len : Z) (path_hashes : option (list string))
    : string :=
  let text_lower := Py.lower text in
  if Py.contains "test" text_lower then
    BOT_NAME +:+ ": " +:+ (if Py.truthy sender then sender else "?")
      +:+ ", rcvd | SNR "
      +:+ match snr with Some x => format_1f x | None => "?" end
      +:+ " | " +:+ _format_path path_len path_hashes
  else if Py.contains "ping" text_lower then BOT_NAME +:+ ": Pong!"
  else BOT_NAME +:+ ": test, ping, help".

(** A decoder that decodes no frame, and an environment with the bot
    switched off. *)
Definition no_decoder : PacketDecoder := λ _, None.

Definition example_env_off (t : float) : env :=
  {| time_time := t;
     strftime_log := "12:00:00";
     strftime_msg := "12:00:00";
     is_bot_enabled := false |}.

(** The session [s] after further calls on the transport, the shared
    store and the decoder have been logged, the worker and [mc] being as
    they were. *)
Definition extend (s : session) (calls : list transport_call)
    (writes : list shared_write) (keys : list key_registration) : session :=
  Session (sess_worker s) (mc s) (transport_calls s ++ calls)
          (shared_writes s ++ writes) (decoder_keys s ++ keys).

(** The key registration [k] is one for the configured channel [ch]:
    derived from the channel's name, or a 16-byte secret of the device. *)
Definition key_for (ch : Z * string) (k : key_registration) : Prop :=
  k = AddChannelKeyFromName ch.1 ch.2
  ∨ ∃ secret, k = AddChannelKey ch.1 secret ∧ length secret = 16.

(** The response does not carry a usable channel secret: it raises, is an
    [ERROR] event, or its payload has no secret of 16 bytes or more. *)
Definition gives_no_key (r : response) : Prop :=
  match r with
  | Event p =>
      match p_channel_secret p with
      | Some secret => length secret < 16
      | None => True
      end
  | _ => True
  end.

(** A write the loading steps make: any but [set_connected]. *)
Definition loading_write (x : shared_write) : Prop :=
  match x with
  | SetConnected _ => False
  | _ => True
  end.

(** The session [s] with [self.mc] set. *)
Definition with_mc (s : session) : session :=
  Session (sess_worker s) true (transport_calls s) (shared_writes s)
          (decoder_keys s).

(** The session [s] with [self.mc] set to [None]. *)
Definition without_mc (s : session) : session :=
  Session (sess_worker s) false (transport_calls s) (shared_writes s)
          (decoder_keys s).

(** The session [s] after its worker has published [m]. *)
Definition with_message (m : message) (s : session) : session :=
  Session (add_message m (sess_worker s)) (mc s) (transport_calls s)
          (shared_writes s) (decoder_keys s).

(** The local echo of a message sent by hand: from [Me], outbound, with
    no path. *)
Definition is_local_echo (m : message) : Prop :=
  m_sender m = "Me" ∧ m_direction m = DirOut ∧ m_path_hashes m = []
  ∧ m_message_hash m = None.

(** The transport never raises an exception. *)
Definition never_raises `{!Transport} : Prop :=
  ∀ history c error, respond history c ≠ Raises error.

(** Transports for the examples: a device that answers every call with an
    [ERROR] event, one whose every call raises, and one that answers
    every call with an event carrying a 20-byte channel secret. *)
Definition dead_transport : Transport := λ _ _, Error.

Definition broken_transport : Transport := λ _ _, Raises "timeout".

Definition example_payload : payload :=
  {| p_name := Some "Node";
     p_ver := Some "1.2";
     p_channel_secret := Some (replicate 20 Byte.x2a);
     p_contacts := [] |}.

Definition good_transport : Transport := λ _ _, Event example_payload.

(** Collaborators for the examples: a contact store with no contacts, a
    decoder that decodes every frame to [d], and a float format. *)
Definition no_contacts : ContactLookup :=
  {| get_contact_by_prefix := λ _, None;
     get_contact_by_name := λ _, None |}.

Definition decoder_of (d : DecodedPacket) : PacketDecoder := λ _, Some d.

Definition format_stub : FloatFormat := λ _, "0.0".

(** Example data: a decrypted GroupText packet on the bot channel, the
    raw-frame notification that carries it, the fallback notification of
    the same transmission (without a message hash), and an environment
    with the bot switched on, read at time [t]. *)
Definition example_packet : DecodedPacket :=
  {| d_payload_type := GroupText;
     d_is_decrypted := true;
     d_message_hash := "5f3a9c01";
     d_sender := "Alice";
     d_text := "ping";
     d_channel_idx := 1;
     d_path_length := 2;
     d_path_hashes := ["8d"; "a8"] |}.

Definition example_rx : rx_log_payload :=
  {| rx_snr := Some 7.5%float;
     rx_rssi := Some (-80)%float;
     rx_payload_type := Some "GRP_TXT";
     rx_path_len := Some 2%Z;
     rx_payload := Some "15028da8c4" |}.

Definition example_fallback : channel_payload :=
  {| cp_message_hash := None;
     cp_text := Some "Alice: ping";
     cp_channel_idx := Some 1%Z;
     cp_SNR := Some 7.5%float;
     cp_snr := None;
     cp_path_len := Some 2%Z |}.

Definition example_env (t : float) : env :=
  {| time_time := t;
     strftime_log := "12:00:00";
     strftime_msg := "12:00:00";
     is_bot_enabled := true |}.

(** Example data for the route builder: a sender contact with a stored
    two-hop route, a repeater contact, the store that knows them, the
    snapshot that lists them, and a message of that sender. *)
Definition example_contact : contact :=
  {| c_adv_name := Some "Alice";
     c_adv_lat := Some 52.5%float;
     c_adv_lon := Some 6.125%float;
     c_type := Some 1%Z;
     c_out_path := Some "8da8";
     c_out_path_len := Some 2%Z;
     c_other_keys := true |}.

Definition example_repeater : contact :=
  {| c_adv_name := Some "Hilltop";
     c_adv_lat := None;
     c_adv_lon := None;
     c_type := Some 2%Z;
     c_out_path := None;
     c_out_path_len := None;
     c_other_keys := true |}.

Definition example_snapshot : snapshot :=
  {| s_name := "";
     s_adv_lat := 0%float;
     s_adv_lon := 0%float;
     s_contacts := [("c4f1a0", example_contact);
                    ("8D17e2", example_repeater)] |}.

Definition example_store : ContactLookup :=
  {| get_contact_by_prefix := λ prefix,
       snd <$> List.find (λ kv, Py.startswith prefix kv.1)
                 (s_contacts example_snapshot);
     get_contact_by_name := λ name,
       List.find (λ kv, bool_decide (c_adv_name kv.2 = Some name))
         (s_contacts example_snapshot) |}.

Definition example_message (path_hashes : list string) : message :=
  {| m_time := "12:00:00";
     m_sender := "Alice";
     m_sender_full := None;
     m_text := "ping";
     m_channel := Some 1%Z;
     m_direction := DirIn;
     m_snr := Some 7.5%float;
     m_path_len := Some 2%Z;
     m_sender_pubkey := "c4f1a0";
     m_path_hashes := path_hashes;
     m_message_hash := Some "5f3a9c01" |}.


Definition example_store_by_key : ContactLookup :=
  {| get_contact_by_prefix := @get_contact_by_prefix example_store;
     get_contact_by_name := λ _, None |}.

(* ================================================================== *)
(** * The bounded dedup cache *)
(* ================================================================== *)

Lemma last_n_length {A} n (l : list A) : length (last_n n l) ≤ n.
Proof. unfold last_n. rewrite length_drop. lia. Qed.

Lemma last_n_short {A} n (l : list A) : length l ≤ n → last_n n l = l.
Proof. intros Hl. unfold last_n. by replace (length l - n) with 0 by lia. Qed.

Lemma last_n_snoc {A} n (l : list A) k :
  last_n n (last_n n l ++ [k]) = last_n n (l ++ [k]).
Proof.
  unfold last_n. rewrite !length_app, length_drop. simpl.
  destruct (decide (length l ≤ n)) as [Hle|Hgt].
  - replace (length l - n) with 0 by lia. simpl.
    by replace (length l - 0 + 1 - n) with (length l + 1 - n) by lia.
  - replace (length l - (length l - n) + 1 - n) with 1 by lia.
    replace (length l + 1 - n) with ((length l - n) + 1) by lia.
    rewrite <- drop_drop. f_equal.
    rewrite drop_app_le by lia. done.
Qed.

Lemma last_n_last {A} n (l : list A) k : 0 < n → k ∈ last_n n (l ++ [k]).
Proof.
  intros Hn. unfold last_n. rewrite length_app. simpl.
  rewrite drop_app_le by lia.
  apply elem_of_app. right. by apply list_elem_of_singleton.
Qed.

Lemma discard_oldest (oldest : string) rest :
  oldest ∉ rest →
  (({[oldest]} ∪ list_to_set rest) ∖ {[oldest]} : gset string)
  = list_to_set rest.
Proof.
  intros Hnotin. apply set_eq. intros x.
  rewrite elem_of_difference, elem_of_union, !elem_of_singleton,
    elem_of_list_to_set.
  split; [intros [[->|Hx] Hne]; done|].
  intros Hx. split; [by right|]. by intros ->.
Qed.

Lemma add_then_append (order : list string) key :
  ({[key]} ∪ list_to_set order : gset string) = list_to_set (order ++ [key]).
Proof.
  apply set_eq. intros x.
  rewrite elem_of_union, !elem_of_list_to_set, elem_of_app,
    elem_of_singleton, list_elem_of_singleton.
  tauto.
Qed.

(** On a duplicate-free order list that the set mirrors, the eviction
    loop keeps exactly the newest [_SEEN_HASHES_MAX] keys. *)
Lemma evict_last_n seen order :
  NoDup order → seen = list_to_set order →
  evict seen order
  = (list_to_set (last_n _SEEN_HASHES_MAX order),
     last_n _SEEN_HASHES_MAX order).
Proof.
  revert seen. induction order as [|oldest rest IH]; intros seen Hnd ->.
  - done.
  - apply NoDup_cons in Hnd as [Hnotin Hnd]. simpl evict.
    case_decide as Hlen.
    + rewrite (IH _ Hnd (discard_oldest _ _ Hnotin)).
      unfold last_n. simpl length.
      by replace (S (length rest) - _SEEN_HASHES_MAX)
        with (S (length rest - _SEEN_HASHES_MAX)) by lia.
    + by rewrite last_n_short by (simpl; lia).
Qed.

Lemma cache_wf_snoc key c :
  cache_wf c → key ∉ c.1 → NoDup (c.2 ++ [key]).
Proof.
  intros (Hnd & Hset & _) Hfresh.
  apply NoDup_app. split_and!; [done| |apply NoDup_singleton].
  intros x Hx ->%list_elem_of_singleton. apply Hfresh.
  rewrite Hset. by apply elem_of_list_to_set.
Qed.

Lemma mark_present key c : key ∈ c.1 → mark key c = c.
Proof. intros Hin. unfold mark. by rewrite decide_True. Qed.

Lemma mark_fresh key c :
  cache_wf c → key ∉ c.1 →
  mark key c
  = (list_to_set (last_n _SEEN_HASHES_MAX (c.2 ++ [key])),
     last_n _SEEN_HASHES_MAX (c.2 ++ [key])).
Proof.
  intros Hwf Hfresh. unfold mark.
  rewrite decide_False by done.
  apply evict_last_n; [by apply cache_wf_snoc|].
  destruct Hwf as (_ & -> & _). apply add_then_append.
Qed.

Lemma cache_wf_empty : cache_wf (∅, []).
Proof. split_and!; simpl; [constructor|done|lia]. Qed.

Lemma mark_wf key c : cache_wf c → cache_wf (mark key c).
Proof.
  intros Hwf. destruct (decide (key ∈ c.1)) as [Hin|Hfresh].
  - by rewrite mark_present.
  - rewrite mark_fresh by done.
    split_and!; simpl; [|done|apply last_n_length].
    eapply sublist_NoDup; [by apply cache_wf_snoc|apply sublist_drop].
Qed.

(** A key is in the cache once it has been marked. *)
Lemma mark_elem_of key c : cache_wf c → key ∈ (mark key c).1.
Proof.
  intros Hwf. destruct (decide (key ∈ c.1)) as [Hin|Hfresh].
  - by rewrite mark_present.
  - rewrite mark_fresh by done. simpl.
    apply elem_of_list_to_set, last_n_last. unfold _SEEN_HASHES_MAX. lia.
Qed.

Lemma mark_all_wf keys :
  cache_wf (foldl (λ c key, mark key c) (∅, []) keys).
Proof.
  induction keys as [|key keys IH] using rev_ind.
  - apply cache_wf_empty.
  - rewrite foldl_app. simpl. by apply mark_wf.
Qed.

(** Marking distinct keys, starting from the empty cache, leaves the
    newest [_SEEN_HASHES_MAX] of them, in insertion order. *)
Lemma mark_all_distinct keys :
  NoDup keys →
  foldl (λ c key, mark key c) (∅, []) keys
  = (list_to_set (last_n _SEEN_HASHES_MAX keys),
     last_n _SEEN_HASHES_MAX keys).
Proof.
  induction keys as [|key keys IH] using rev_ind; intros Hnd.
  - done.
  - apply NoDup_app in Hnd as (Hnd & Hkey & _).
    rewrite foldl_app. simpl.
    pose proof (mark_all_wf keys) as Hwf.
    rewrite (IH Hnd) in Hwf |- *.
    rewrite mark_fresh; [|done|].
    + simpl. by rewrite last_n_snoc.
    + simpl. intros Hin%elem_of_list_to_set.
      eapply Hkey; [|by apply list_elem_of_singleton].
      eapply elem_of_sublist; [done|apply sublist_drop].
Qed.

Lemma hash_cache_mark_seen key w :
  hash_cache (_mark_seen key w) = mark key (hash_cache w).
Proof. unfold hash_cache, _mark_seen. simpl. by destruct (mark _ _). Qed.

Lemma hash_cache_mark_seen_all keys w :
  hash_cache (mark_seen_all keys w)
  = foldl (λ c key, mark key c) (hash_cache w) keys.
Proof.
  unfold mark_seen_all. revert w.
  induction keys as [|key keys IH]; intros w; [done|].
  simpl. by rewrite IH, hash_cache_mark_seen.
Qed.

(** C3. FIFO eviction.  When [_SEEN_HASHES_MAX] + 1 = 201 distinct hashes
    are marked on a fresh worker, [first] before [others], then after the
    last insertion [_is_seen] is false for [first] and true for each of
    the 200 others; and after each of the insertions neither the
    membership set nor the order list holds more than 200 keys. *)
Theorem fifo_eviction (first : string) (others : list string) :
  NoDup (first :: others) →
  length others = _SEEN_HASHES_MAX →
  let final := mark_seen_all (first :: others) init in
  _is_seen first final = false
  ∧ (∀ key, key ∈ others → _is_seen key final = true)
  ∧ (∀ n, let w := mark_seen_all (take n (first :: others)) init in
          size (_seen_hashes w) ≤ _SEEN_HASHES_MAX
          ∧ length (_seen_hashes_order w) ≤ _SEEN_HASHES_MAX).
Proof.
  intros Hnd Hlen final.
  assert (hash_cache final = (list_to_set others, others)) as Hfinal.
  { unfold final. rewrite hash_cache_mark_seen_all.
    change (hash_cache init) with (∅ : gset string, [] : list string).
    rewrite (mark_all_distinct _ Hnd). unfold last_n. simpl length.
    rewrite Hlen. by replace (S _SEEN_HASHES_MAX - _SEEN_HASHES_MAX) with 1 by lia. }
  apply (f_equal fst) in Hfinal. simpl in Hfinal.
  apply NoDup_cons in Hnd as [Hfirst Hothers].
  unfold _is_seen. rewrite Hfinal. split_and!.
  - apply bool_decide_eq_false. by rewrite elem_of_list_to_set.
  - intros key Hkey. apply bool_decide_eq_true. by rewrite elem_of_list_to_set.
  - intros n. cbv zeta.
    set (w := mark_seen_all (take n (first :: others)) init).
    pose proof (mark_all_wf (take n (first :: others))) as (Hnd' & Hset & Hcap).
    assert (hash_cache w
            = foldl (λ c key, mark key c) (∅, []) (take n (first :: others)))
      as Hw by apply hash_cache_mark_seen_all.
    rewrite <- Hw in Hnd', Hset, Hcap. simpl in Hnd', Hset, Hcap.
    split; [|done]. rewrite Hset, size_list_to_set by done. done.
Qed.

Lemma fifo_eviction_witness :
  let others := (λ n : nat, pretty n) <$> seq 1 200 in
  let final := mark_seen_all ("0" :: others) init in
  _is_seen "0" final = false
  ∧ (∀ key, key ∈ others → _is_seen key final = true)
  ∧ (∀ n, let w := mark_seen_all (take n ("0" :: others)) init in
          size (_seen_hashes w) ≤ _SEEN_HASHES_MAX
          ∧ length (_seen_hashes_order w) ≤ _SEEN_HASHES_MAX).
Proof.
  apply (fifo_eviction "0" ((λ n : nat, pretty n) <$> seq 1 200)).
  - apply (bool_decide_unpack _). vm_compute. exact I.
  - reflexivity.
Defined.

(* ================================================================== *)
(** * The path descriptor of the bot *)
(* ================================================================== *)

Lemma filter_all_ok (hashes : list string) :
  Forall (λ h, hop_hash_ok h = true) hashes →
  List.filter hop_hash_ok hashes = hashes.
Proof.
  induction hashes as [|h hashes IH]; intros Hall; [done|].
  apply Forall_cons in Hall as [Hh Hall].
  cbn [List.filter]. by rewrite Hh, IH.
Qed.

Lemma format_path_no_hops (path_len : Z) (path_hashes : option (list string)) :
  path_len ≠ 0%Z →
  from_option (List.filter hop_hash_ok) [] path_hashes = [] →
  _format_path path_len path_hashes = "path(" +:+ Py.str_int path_len +:+ ")".
Proof.
  intros Hlen Hnone. unfold _format_path.
  rewrite bool_decide_eq_false_2 by done.
  destruct path_hashes as [[|h hashes]|]; [done| |done].
  cbn [from_option] in Hnone. by rewrite Hnone.
Qed.

Lemma format_path_hops (path_len : Z) (hashes : list string) :
  path_len ≠ 0%Z →
  List.filter hop_hash_ok hashes ≠ [] →
  _format_path path_len (Some hashes)
  = "path(" +:+ Py.str_int path_len +:+ "); "
      +:+ Py.join ">" (Py.upper <$> List.filter hop_hash_ok hashes).
Proof.
  intros Hlen Hsome. unfold _format_path.
  rewrite bool_decide_eq_false_2 by done.
  destruct hashes as [|h hashes]; [done|].
  destruct (List.filter hop_hash_ok (h :: hashes)); done.
Qed.

(** C5. Path descriptor formatting.  Hop count 0 gives [path(0)] whatever
    the hash list; hop count 3 with hashes 8d, a8 gives [path(3); 8D>A8];
    hop count 2 with an absent or empty list gives [path(2)], as does any
    non-zero hop count [n] with no known hop identifier, which gives
    [path(n)]; and a positive hop count [n] with at least one known hop
    identifier gives [path(n); ] followed by the upper-cased known
    identifiers joined by [>].  The known identifiers are the hashes of
    the list of two or more characters; when every hash of the list is
    one, they are the whole list. *)
Theorem format_path_spec :
  (∀ path_hashes, _format_path 0 path_hashes = "path(0)")
  ∧ _format_path 3 (Some ["8d"; "a8"]) = "path(3); 8D>A8"
  ∧ _format_path 2 None = "path(2)"
  ∧ _format_path 2 (Some []) = "path(2)"
  ∧ (∀ n path_hashes,
       n ≠ 0%Z →
       from_option (List.filter hop_hash_ok) [] path_hashes = [] →
       _format_path n path_hashes = "path(" +:+ Py.str_int n +:+ ")")
  ∧ (∀ n hashes,
       (0 < n)%Z →
       List.filter hop_hash_ok hashes ≠ [] →
       _format_path n (Some hashes)
       = "path(" +:+ Py.str_int n +:+ "); "
           +:+ Py.join ">" (Py.upper <$> List.filter hop_hash_ok hashes))
  ∧ (∀ n hashes,
       (0 < n)%Z →
       hashes ≠ [] →
       Forall (λ h, 2 ≤ String.length h) hashes →
       _format_path n (Some hashes)
       = "path(" +:+ Py.str_int n +:+ "); "
           +:+ Py.join ">" (Py.upper <$> hashes)).
Proof.
  split_and!; try done.
  - intros n path_hashes Hn Hnone. by apply format_path_no_hops.
  - intros n hashes Hn Hsome. apply format_path_hops; [lia|done].
  - intros n hashes Hn Hsome Hall.
    assert (List.filter hop_hash_ok hashes = hashes) as Hfilter.
    { apply filter_all_ok. eapply Forall_impl; [exact Hall|].
      intros [|c h] Hh; simpl in Hh; [lia|].
      unfold hop_hash_ok, Py.len. simpl Py.truthy.
      apply bool_decide_eq_true. simpl String.length. lia. }
    rewrite <- Hfilter at 2. apply format_path_hops; [lia|].
    by rewrite Hfilter.
Qed.

Lemma format_path_spec_witness :
  _format_path 4 (Some ["8d"; "a"; ""; "a8f1"]) = "path(4); 8D>A8F1"
  ∧ _format_path 7 (Some ["a"]) = "path(7)"
  ∧ _format_path 5 (Some ["1c"; "e2"; "0b"]) = "path(5); 1C>E2>0B".
Proof.
  destruct format_path_spec as (_ & _ & _ & _ & Hnone & Hknown & Hall).
  split_and!.
  - apply (Hknown 4%Z ["8d"; "a"; ""; "a8f1"]); [lia|vm_compute; discriminate].
  - apply (Hnone 7%Z (Some ["a"])); [lia|reflexivity].
  - apply (Hall 5%Z ["1c"; "e2"; "0b"]); [lia|discriminate|].
    repeat constructor.
Defined.

(* ================================================================== *)
(** * The event callbacks *)
(* ================================================================== *)

Section callbacks.
Context `{!ContactLookup, !PacketDecoder, !FloatFormat}.

(** The bot either leaves the worker alone or queues one reply and sets
    the cooldown timestamp to the current time. *)
Lemma bot_check_cases e sender text channel_idx snr path_len path_hashes w :
  let w' :=
    _bot_check_and_queue e sender text channel_idx snr path_len path_hashes w in
  w' = w
  ∨ ∃ reply,
      w' = queue_reply (time_time e)
             {| cmd_action := "send_message"; cmd_channel := BOT_CHANNEL;
                cmd_text := reply; cmd_bot := true |} w
      ∧ qualifies e sender text channel_idx = true
      ∧ cooldown_active (time_time e) (_bot_last_reply w) = false.
Proof.
  unfold _bot_check_and_queue, qualifies.
  destruct (is_bot_enabled e); [|by left].
  destruct (bool_decide (channel_idx = Some BOT_CHANNEL)); [|by left].
  destruct (is_own_message sender text); [by left|].
  destruct (is_other_bot sender); [by left|].
  destruct (cooldown_active _ _); [by left|].
  destruct (matched_template _) as [template|]; [|by left].
  destruct (bot_reply _ _ _ _ _) as [reply|]; [|by left].
  right. by exists reply.
Qed.

(** The bot touches neither the published messages nor the caches. *)
Lemma bot_check_frame e sender text channel_idx snr path_len path_hashes w :
  let w' :=
    _bot_check_and_queue e sender text channel_idx snr path_len path_hashes w in
  messages w' = messages w
  ∧ rx_log w' = rx_log w
  ∧ hash_cache w' = hash_cache w
  ∧ content_cache w' = content_cache w.
Proof.
  destruct (bot_check_cases e sender text channel_idx snr path_len
              path_hashes w) as [->|(reply & -> & _)]; done.
Qed.

(** What the bot does depends on the worker only through the cooldown
    timestamp and the command queue. *)
Lemma bot_check_commands e sender text channel_idx snr path_len path_hashes
    w1 w2 :
  _bot_last_reply w1 = _bot_last_reply w2 →
  commands w1 = commands w2 →
  let bot := _bot_check_and_queue e sender text channel_idx snr path_len
               path_hashes in
  _bot_last_reply (bot w1) = _bot_last_reply (bot w2)
  ∧ commands (bot w1) = commands (bot w2).
Proof.
  intros Hlast Hcmds. unfold _bot_check_and_queue. rewrite Hlast.
  repeat case_match; simpl; try done. by rewrite Hcmds.
Qed.

(** A raw frame that decodes to a message: both keys are marked, the
    message is published and the bot is asked, with no other test. *)
Lemma on_rx_log_message e rx d w :
  decodes_to rx d →
  _on_rx_log e rx w
  = _bot_check_and_queue e (d_sender d) (d_text d) (Some (d_channel_idx d))
      (rx_snr rx) (d_path_length d) (Some (d_path_hashes d))
      (add_message (rx_message e rx d)
         (_mark_content_seen (d_sender d) (Some (d_channel_idx d)) (d_text d)
            (_mark_seen (d_message_hash d) (add_rx_log (rx_entry e rx) w)))).
Proof.
  intros (payload_hex & Hhex & Htruthy & Hdecode & Hmsg).
  unfold _on_rx_log. rewrite Hhex. simpl default.
  by rewrite Htruthy, Hdecode, Hmsg.
Qed.

Lemma on_rx_log_messages e rx d w :
  decodes_to rx d →
  messages (_on_rx_log e rx w) = messages w ++ [rx_message e rx d].
Proof.
  intros Hd. rewrite (on_rx_log_message _ _ _ _ Hd).
  by rewrite (proj1 (bot_check_frame _ _ _ _ _ _ _ _)).
Qed.

Lemma on_rx_log_hash_cache e rx d w :
  decodes_to rx d →
  hash_cache (_on_rx_log e rx w) = mark (d_message_hash d) (hash_cache w).
Proof.
  intros Hd. rewrite (on_rx_log_message _ _ _ _ Hd).
  destruct (bot_check_frame e (d_sender d) (d_text d) (Some (d_channel_idx d))
    (rx_snr rx) (d_path_length d) (Some (d_path_hashes d))
    (add_message (rx_message e rx d)
         (_mark_content_seen (d_sender d) (Some (d_channel_idx d)) (d_text d)
            (_mark_seen (d_message_hash d) (add_rx_log (rx_entry e rx) w)))))
    as (_ & _ & -> & _).
  unfold hash_cache. simpl. by destruct (mark _ _).
Qed.

Lemma on_rx_log_content_cache e rx d w :
  decodes_to rx d →
  content_cache (_on_rx_log e rx w)
  = mark (content_key (d_sender d) (Some (d_channel_idx d)) (d_text d))
      (content_cache w).
Proof.
  intros Hd. rewrite (on_rx_log_message _ _ _ _ Hd).
  destruct (bot_check_frame e (d_sender d) (d_text d) (Some (d_channel_idx d))
    (rx_snr rx) (d_path_length d) (Some (d_path_hashes d))
    (add_message (rx_message e rx d)
         (_mark_content_seen (d_sender d) (Some (d_channel_idx d)) (d_text d)
            (_mark_seen (d_message_hash d) (add_rx_log (rx_entry e rx) w)))))
    as (_ & _ & _ & ->).
  unfold content_cache. simpl. by destruct (mark _ _).
Qed.

(** The fallback callback either drops the notification, leaving the
    worker as it is, or publishes its message and asks the bot. *)
Lemma on_channel_msg_cases e p w :
  let msg_hash := default "" (cp_message_hash p) in
  let st := split_sender (default "" (cp_text p)) in
  let suppressed :=
    Py.truthy msg_hash && _is_seen msg_hash w
    || _is_content_seen st.1 (cp_channel_idx p) st.2 w in
  _on_channel_msg e p w
  = if suppressed then w
    else _bot_check_and_queue e st.1 st.2 (cp_channel_idx p) (channel_snr p)
           (default 0%Z (cp_path_len p)) None
           (add_message (channel_message e p) w).
Proof.
  unfold _on_channel_msg. simpl.
  destruct (Py.truthy _ && _is_seen _ w); [done|]. simpl.
  destruct (split_sender _) as [sender msg_text]. simpl.
  by destruct (_is_content_seen _ _ _ _).
Qed.

End callbacks.

(* ================================================================== *)
(** * Reconciliation of the two notifications *)
(* ================================================================== *)

Section reconciler.
Context `{!ContactLookup, !PacketDecoder, !FloatFormat}.

Lemma init_wf : worker_wf init.
Proof. split; apply cache_wf_empty. Qed.

Lemma on_channel_msg_caches e p w :
  hash_cache (_on_channel_msg e p w) = hash_cache w
  ∧ content_cache (_on_channel_msg e p w) = content_cache w.
Proof.
  rewrite on_channel_msg_cases. cbv zeta.
  destruct (_ || _); [done|].
  destruct (bot_check_frame e (split_sender (default "" (cp_text p))).1
    (split_sender (default "" (cp_text p))).2 (cp_channel_idx p)
    (channel_snr p) (default 0%Z (cp_path_len p)) None
    (add_message (channel_message e p) w)) as (_ & _ & -> & ->).
  done.
Qed.

Lemma on_rx_log_caches_other e rx w :
  (∀ d, ¬ decodes_to rx d) →
  hash_cache (_on_rx_log e rx w) = hash_cache w
  ∧ content_cache (_on_rx_log e rx w) = content_cache w.
Proof.
  intros Hno. unfold _on_rx_log.
  destruct (rx_payload rx) as [payload_hex|] eqn:Hhex; [|done]. simpl default.
  destruct (Py.truthy payload_hex) eqn:Htruthy; [|done]. simpl negb. cbv iota.
  destruct (decode payload_hex) as [d|] eqn:Hdecode; [|done].
  destruct (is_message d) eqn:Hmsg; [|done].
  destruct (Hno d). by exists payload_hex.
Qed.

(** Every callback keeps both caches well formed, so every worker reached
    from [init] has well-formed caches. *)
Lemma handle_wf w ev : worker_wf w → worker_wf (handle w ev).
Proof.
  intros [Hh Hc]. destruct ev as [e rx|e p]; simpl.
  - destruct (rx_payload rx) as [payload_hex|] eqn:Hhex.
    + destruct (Py.truthy payload_hex) eqn:Htruthy.
      * destruct (decode payload_hex) as [d|] eqn:Hdecode.
        -- destruct (is_message d) eqn:Hmsg.
           ++ assert (decodes_to rx d) as Hd by by exists payload_hex.
              split.
              ** rewrite (on_rx_log_hash_cache _ _ _ _ Hd). by apply mark_wf.
              ** rewrite (on_rx_log_content_cache _ _ _ _ Hd). by apply mark_wf.
           ++ unfold _on_rx_log. rewrite Hhex. simpl default.
              by rewrite Htruthy, Hdecode, Hmsg.
        -- unfold _on_rx_log. rewrite Hhex. simpl default.
           by rewrite Htruthy, Hdecode.
      * unfold _on_rx_log. rewrite Hhex. simpl default. by rewrite Htruthy.
    + unfold _on_rx_log. by rewrite Hhex.
  - destruct (on_channel_msg_caches e p w) as [Hh' Hc'].
    split; [by rewrite Hh'|by rewrite Hc'].
Qed.

Lemma run_wf w evs : worker_wf w → worker_wf (run w evs).
Proof.
  unfold run. revert w. induction evs as [|ev evs IH]; intros w Hw; [done|].
  simpl. by apply IH, handle_wf.
Qed.

(** After a raw frame has been processed as a message, a fallback
    notification whose content key equals the packet's is dropped. *)
Lemma fallback_after_raw_key e1 e2 rx fb d w :
  worker_wf w → decodes_to rx d →
  (let st := split_sender (default "" (cp_text fb)) in
   content_key st.1 (cp_channel_idx fb) st.2)
  = content_key (d_sender d) (Some (d_channel_idx d)) (d_text d) →
  _on_channel_msg e2 fb (_on_rx_log e1 rx w) = _on_rx_log e1 rx w.
Proof.
  intros [_ Hc] Hd Hkey.
  rewrite on_channel_msg_cases. cbv zeta.
  unfold _is_content_seen at 1. cbv zeta in Hkey. rewrite Hkey.
  rewrite (bool_decide_eq_true_2 (_ ∈ _)); [by rewrite orb_true_r|].
  change (_seen_content (_on_rx_log e1 rx w))
    with (content_cache (_on_rx_log e1 rx w)).1.
  rewrite (on_rx_log_content_cache _ _ _ _ Hd). by apply mark_elem_of.
Qed.

(** In particular a matching fallback notification is dropped. *)
Lemma fallback_after_raw e1 e2 rx fb d w :
  worker_wf w → decodes_to rx d → matches d fb →
  _on_channel_msg e2 fb (_on_rx_log e1 rx w) = _on_rx_log e1 rx w.
Proof.
  intros Hwf Hd (Hch & Hsplit & _).
  apply (fallback_after_raw_key _ _ _ _ d); [done..|].
  by rewrite Hsplit, Hch.
Qed.

(** A fallback notification whose hash and content key are not cached is
    published. *)
Lemma fallback_fresh e fb d w :
  matches d fb →
  d_message_hash d ∉ _seen_hashes w →
  content_key (d_sender d) (Some (d_channel_idx d)) (d_text d)
    ∉ _seen_content w →
  messages (_on_channel_msg e fb w) = messages w ++ [channel_message e fb].
Proof.
  intros (Hch & Hsplit & Hhash) Hh Hc.
  rewrite on_channel_msg_cases. cbv zeta.
  rewrite Hsplit, Hch. simpl fst. simpl snd.
  assert (_is_content_seen (d_sender d) (Some (d_channel_idx d)) (d_text d) w
          = false) as -> by by apply bool_decide_eq_false.
  assert (Py.truthy (default "" (cp_message_hash fb))
          && _is_seen (default "" (cp_message_hash fb)) w = false) as ->.
  { destruct Hhash as [->| ->]; [done|]. simpl default.
    apply andb_false_intro2. by apply bool_decide_eq_false. }
  simpl orb. cbv iota.
  by rewrite (proj1 (bot_check_frame _ _ _ _ _ _ _ _)).
Qed.

(** C1, as the code has it.  For a raw-frame notification that decodes to
    a decrypted GroupText packet and a matching fallback notification:
    when the raw frame is processed first, the fallback is dropped and the
    pair publishes exactly one record, the one of the raw frame; when the
    fallback is processed first, and neither the hash nor the content key
    of the transmission is cached yet, the fallback is published and the
    raw frame after it, so the pair publishes two records. *)
Theorem raw_first_publishes_once e1 e2 rx fb d w :
  worker_wf w → decodes_to rx d → matches d fb →
  messages (run w [RxLogData e1 rx; ChannelMsgRecv e2 fb])
  = messages w ++ [rx_message e1 rx d]
  ∧ (d_message_hash d ∉ _seen_hashes w →
     content_key (d_sender d) (Some (d_channel_idx d)) (d_text d)
       ∉ _seen_content w →
     messages (run w [ChannelMsgRecv e2 fb; RxLogData e1 rx])
     = messages w ++ [channel_message e2 fb; rx_message e1 rx d]).
Proof.
  intros Hwf Hd Hm. unfold run. simpl foldl. split.
  - rewrite (fallback_after_raw _ _ _ _ _ _ Hwf Hd Hm).
    by apply on_rx_log_messages.
  - intros Hh Hc.
    rewrite (on_rx_log_messages _ _ _ _ Hd).
    rewrite (fallback_fresh _ _ _ _ Hm Hh Hc).
    by rewrite <- app_assoc.
Qed.

(** C2, as the code has it.  A raw-frame notification that decodes to a
    decrypted GroupText packet is never dropped: its message record is
    published and the bot check is run on it, whether or not the packet's
    hash is already in the hash cache.  When the hash is already there,
    all that is skipped is the insertion: the hash cache stays as it is. *)
Theorem raw_frame_always_published e rx d w :
  decodes_to rx d →
  let w' := _on_rx_log e rx w in
  let bot :=
    _bot_check_and_queue e (d_sender d) (d_text d) (Some (d_channel_idx d))
      (rx_snr rx) (d_path_length d) (Some (d_path_hashes d)) in
  messages w' = messages w ++ [rx_message e rx d]
  ∧ commands w' = commands (bot w)
  ∧ _bot_last_reply w' = _bot_last_reply (bot w)
  ∧ (_is_seen (d_message_hash d) w = true → hash_cache w' = hash_cache w).
Proof.
  intros Hd. cbv zeta. split_and!.
  - by apply on_rx_log_messages.
  - rewrite (on_rx_log_message _ _ _ _ Hd).
    apply bot_check_commands; simpl; by repeat destruct (mark _ _).
  - rewrite (on_rx_log_message _ _ _ _ Hd).
    apply bot_check_commands; simpl; by repeat destruct (mark _ _).
  - intros Hseen%bool_decide_eq_true.
    rewrite (on_rx_log_hash_cache _ _ _ _ Hd). by apply mark_present.
Qed.

(** C9. The fallback callback only tests the caches: it leaves the hash
    cache and the content cache as they were.  So when a fallback
    notification is published, the same notification arriving again right
    after it is published again: the two add two records. *)
Theorem fallback_never_marks e1 e2 p w :
  (hash_cache (_on_channel_msg e1 p w) = hash_cache w
   ∧ content_cache (_on_channel_msg e1 p w) = content_cache w)
  ∧ (messages (_on_channel_msg e1 p w) ≠ messages w →
     messages (_on_channel_msg e2 p (_on_channel_msg e1 p w))
     = messages w ++ [channel_message e1 p; channel_message e2 p]).
Proof.
  split; [apply on_channel_msg_caches|].
  intros Hpub.
  destruct (on_channel_msg_caches e1 p w) as [Hh Hc].
  apply (f_equal fst) in Hh, Hc. simpl in Hh, Hc.
  rewrite (on_channel_msg_cases e2). cbv zeta.
  unfold _is_seen, _is_content_seen. rewrite Hh, Hc.
  rewrite (on_channel_msg_cases e1) in Hpub |- *. cbv zeta in Hpub |- *.
  unfold _is_seen, _is_content_seen in Hpub |- *.
  destruct (_ || _); [done|].
  rewrite (proj1 (bot_check_frame _ _ _ _ _ _ _ _)). simpl.
  rewrite (proj1 (bot_check_frame _ _ _ _ _ _ _ _)). simpl.
  by rewrite <- app_assoc.
Qed.

(** C10. The content key is not injective: on channel 1, sender [a] with
    text [b:c] and sender [a:b] with text [c] are different pairs with the
    same key.  Hence, once a raw frame has been processed as a message, a
    fallback notification whose derived sender and text differ from the
    packet's, but whose key is the same, is dropped; the fallback text
    [a:b: c] after a packet from [a] with text [b:c] is such a case. *)
Theorem content_key_not_injective :
  ("a", "b:c") ≠ ("a:b", "c")
  ∧ content_key "a" (Some 1%Z) "b:c" = content_key "a:b" (Some 1%Z) "c"
  ∧ split_sender "a:b: c" = ("a:b", "c")
  ∧ (∀ e1 e2 rx fb d w,
       worker_wf w → decodes_to rx d →
       d_sender d = "a" → d_text d = "b:c" → d_channel_idx d = 1%Z →
       cp_text fb = Some "a:b: c" → cp_channel_idx fb = Some 1%Z →
       messages (run w [RxLogData e1 rx; ChannelMsgRecv e2 fb])
       = messages w ++ [rx_message e1 rx d]).
Proof.
  split_and!; [done..|].
  intros e1 e2 rx fb d w Hwf Hd Hsender Htext Hch Hfb Hfbch.
  unfold run. simpl foldl.
  rewrite (fallback_after_raw_key _ _ _ _ d); [by apply on_rx_log_messages|done..|].
  by rewrite Hfb, Hfbch, Hsender, Htext, Hch.
Qed.

End reconciler.

Lemma raw_first_publishes_once_witness :
  let raw := RxLogData (example_env 100) example_rx in
  let fallback := ChannelMsgRecv (example_env 100) example_fallback in
  length (messages (@run no_contacts (decoder_of example_packet) format_stub
                      init [raw; fallback])) = 1
  ∧ length (messages (@run no_contacts (decoder_of example_packet) format_stub
                        init [fallback; raw])) = 2.
Proof.
  destruct (@raw_first_publishes_once no_contacts (decoder_of example_packet)
              format_stub (example_env 100) (example_env 100) example_rx
              example_fallback example_packet init) as [Hraw Hfb].
  - apply init_wf.
  - exists "15028da8c4". by vm_compute.
  - split_and!; [reflexivity..|by left].
  - split.
    + cbv zeta. rewrite Hraw. reflexivity.
    + cbv zeta. rewrite Hfb; [reflexivity|apply not_elem_of_empty..].
Defined.

(** C1, as the claim states it, fails when the fallback notification
    comes first: from the fresh worker the fallback is published, it marks
    nothing, and the raw frame is then published as well. *)
Lemma fallback_first_publishes_twice :
  @decodes_to (decoder_of example_packet) example_rx example_packet
  ∧ matches example_packet example_fallback
  ∧ length (messages (@run no_contacts (decoder_of example_packet) format_stub
                        init [ChannelMsgRecv (example_env 100) example_fallback;
                              RxLogData (example_env 100) example_rx])) = 2.
Proof.
  split_and!.
  - exists "15028da8c4". by vm_compute.
  - split_and!; [reflexivity..|by left].
  - vm_compute. reflexivity.
Qed.

Lemma raw_frame_always_published_witness :
  let w := @_on_rx_log no_contacts (decoder_of example_packet) format_stub
             (example_env 100) example_rx init in
  let w' := @_on_rx_log no_contacts (decoder_of example_packet) format_stub
              (example_env 200) example_rx w in
  messages w'
  = messages w ++ [@rx_message no_contacts (example_env 200) example_rx
                     example_packet]
  ∧ hash_cache w' = hash_cache w.
Proof.
  cbv zeta.
  destruct (@raw_frame_always_published no_contacts
              (decoder_of example_packet) format_stub (example_env 200)
              example_rx example_packet
              (@_on_rx_log no_contacts (decoder_of example_packet) format_stub
                 (example_env 100) example_rx init))
    as (Hmsg & _ & _ & Hcache).
  - exists "15028da8c4". by vm_compute.
  - split; [exact Hmsg|]. apply Hcache. vm_compute. reflexivity.
Defined.

(** C2, as the claim states it, fails: when the same raw frame is
    delivered twice, the second delivery finds its hash in the cache and
    is published all the same, and the bot replies to it as well. *)
Lemma duplicate_raw_frame_published :
  let w := @_on_rx_log no_contacts (decoder_of example_packet) format_stub
             (example_env 100) example_rx init in
  let w' := @_on_rx_log no_contacts (decoder_of example_packet) format_stub
              (example_env 200) example_rx w in
  _is_seen (d_message_hash example_packet) w = true
  ∧ length (messages w) = 1 ∧ length (messages w') = 2
  ∧ length (commands w) = 1 ∧ length (commands w') = 2.
Proof. vm_compute. by split_and!. Qed.

Lemma fallback_never_marks_witness :
  let w := @_on_channel_msg no_contacts format_stub
             (example_env 100) example_fallback init in
  let w' := @_on_channel_msg no_contacts format_stub
              (example_env 101) example_fallback w in
  length (messages w') = 2
  ∧ hash_cache w' = hash_cache init
  ∧ content_cache w' = content_cache init.
Proof.
  cbv zeta.
  destruct (@fallback_never_marks no_contacts format_stub (example_env 100)
              (example_env 101) example_fallback init) as [[Hh Hc] Hpub].
  destruct (@fallback_never_marks no_contacts format_stub (example_env 101)
              (example_env 101) example_fallback
              (@_on_channel_msg no_contacts format_stub
                 (example_env 100) example_fallback init)) as [[Hh' Hc'] _].
  split_and!.
  - rewrite Hpub; [reflexivity|]. vm_compute. discriminate.
  - by rewrite Hh', Hh.
  - by rewrite Hc', Hc.
Defined.

Lemma content_key_not_injective_witness :
  let d := {| d_payload_type := GroupText; d_is_decrypted := true;
              d_message_hash := "77aa01b2"; d_sender := "a";
              d_text := "b:c"; d_channel_idx := 1; d_path_length := 0;
              d_path_hashes := [] |} in
  let fb := {| cp_message_hash := None; cp_text := Some "a:b: c";
               cp_channel_idx := Some 1%Z; cp_SNR := None; cp_snr := None;
               cp_path_len := None |} in
  length (messages (@run no_contacts (decoder_of d) format_stub init
                      [RxLogData (example_env 100) example_rx;
                       ChannelMsgRecv (example_env 101) fb])) = 1
  ∧ length (messages (@run no_contacts (decoder_of d) format_stub init
                        [ChannelMsgRecv (example_env 101) fb])) = 1.
Proof.
  intros d fb.
  destruct (@content_key_not_injective no_contacts (decoder_of d) format_stub)
    as (_ & _ & _ & Hdrop).
  split.
  - rewrite (Hdrop (example_env 100) (example_env 101) example_rx fb d init).
    + reflexivity.
    + apply init_wf.
    + exists "15028da8c4". by vm_compute.
    + reflexivity.
    + reflexivity.
    + reflexivity.
    + reflexivity.
    + reflexivity.
  - vm_compute. reflexivity.
Defined.

(* ================================================================== *)
(** * The bot trigger *)
(* ================================================================== *)

(** The white-space characters, spelled out. *)
Lemma is_space_elem_of c :
  Py.is_space c = true →
  c ∈ Py.chr <$> [9; 10; 11; 12; 13; 28; 29; 30; 31; 32]%N
  ∨ c ∈ Py.chr <$> [133; 160]%N
  ∨ c ∈ Py.chr <$> [5760; 8192; 8193; 8194; 8195; 8196; 8197; 8198; 8199;
                    8200; 8201; 8202; 8232; 8233; 8239; 8287; 12288]%N.
Proof.
  intros Hc%bool_decide_eq_true. unfold Py.whitespace in Hc.
  change [9; 10; 11; 12; 13; 28; 29; 30; 31; 32; 133; 160; 5760;
          8192; 8193; 8194; 8195; 8196; 8197; 8198; 8199; 8200; 8201; 8202;
          8232; 8233; 8239; 8287; 12288]%N
    with ([9; 10; 11; 12; 13; 28; 29; 30; 31; 32]
          ++ [133; 160]
          ++ [5760; 8192; 8193; 8194; 8195; 8196; 8197; 8198; 8199;
              8200; 8201; 8202; 8232; 8233; 8239; 8287; 12288])%N in Hc.
  rewrite !fmap_app, !elem_of_app in Hc. exact Hc.
Qed.

Local Ltac each_char H :=
  vm_compute in H;
  repeat (apply elem_of_cons in H as [->|H]);
  [..|by apply elem_of_nil in H].

(** A white-space character has at most three bytes. *)
Lemma is_space_length c : Py.is_space c = true → String.length c ≤ 3.
Proof.
  intros [Hc|[Hc|Hc]]%is_space_elem_of; each_char Hc; simpl; lia.
Qed.

(** A white-space character in front of white space is stripped with
    it. *)
Lemma rstrip_space_char c rest :
  Py.is_space c = true → Py.rstrip rest = "" → Py.rstrip (c +:+ rest) = "".
Proof.
  intros [Hc|[Hc|Hc]]%is_space_elem_of Hrest; each_char Hc;
    cbv [String.append]; cbn [Py.rstrip]; rewrite Hrest; reflexivity.
Qed.

Lemma rstrip_all_space s : all_space s = true → Py.rstrip s = "".
Proof.
  remember (String.length s) as n eqn:Hn. revert s Hn.
  induction (lt_wf n) as [n _ IH]. intros s -> Hs.
  destruct s as [|a s1]; [done|]. cbn [all_space] in Hs.
  apply orb_prop in Hs as [[Ha Hs1]%andb_prop|Hs].
  { apply (rstrip_space_char (String a "") s1 Ha).
    eapply IH; [|done|done]. simpl. lia. }
  destruct s1 as [|b s2]; [done|].
  apply orb_prop in Hs as [[Hab Hs2]%andb_prop|Hs].
  { apply (rstrip_space_char (String a (String b "")) s2 Hab).
    eapply IH; [|done|done]. simpl. lia. }
  destruct s2 as [|c s3]; [done|].
  apply andb_prop in Hs as [Habc Hs3].
  apply (rstrip_space_char (String a (String b (String c ""))) s3 Habc).
  eapply IH; [|done|done]. simpl. lia.
Qed.

Lemma length_append s s' :
  String.length (s +:+ s') = String.length s + String.length s'.
Proof. induction s as [|c s IH]; simpl; [done|]. by rewrite IH. Qed.

(** What is left of a text after stripping, when it has three bytes or
    more, stays as it is behind any text. *)
Lemma rstrip_app s s' :
  3 ≤ String.length (Py.rstrip s') →
  Py.rstrip (s +:+ s') = s +:+ Py.rstrip s'.
Proof.
  intros Hs'. induction s as [|c s IH]; [done|].
  change (String c s +:+ s') with (String c (s +:+ s')).
  cbn [Py.rstrip]. rewrite IH.
  destruct (Py.is_space _) eqn:Hspace; [|done].
  apply is_space_length in Hspace. cbn [String.length] in Hspace.
  rewrite length_append in Hspace. lia.
Qed.

(** White space outside ASCII is stripped as Python strips it: a no-break
    space (U+00A0) after a bot's name or after the sender's name of a
    channel text, an ideographic space (U+3000) and an em space (U+2003)
    around a text; a zero-width space (U+200B) is no white space. *)
Lemma strip_beyond_ascii :
  is_other_bot ("Relay Bot" +:+ Py.chr 160) = true
  ∧ split_sender ("Alice" +:+ Py.chr 160 +:+ ": ping") = ("Alice", "ping")
  ∧ Py.strip (Py.chr 12288 +:+ "a b" +:+ Py.chr 8195 +:+ " ") = "a b"
  ∧ Py.strip ("a" +:+ Py.chr 8203) = "a" +:+ Py.chr 8203.
Proof. by vm_compute. Qed.

Lemma lower_app s s' : Py.lower (s +:+ s') = Py.lower s +:+ Py.lower s'.
Proof.
  induction s as [|c s IH]; [done|].
  change (String c s +:+ s') with (String c (s +:+ s')).
  unfold Py.lower in *. cbn [Py.map_chars]. by rewrite IH.
Qed.

Lemma endswith_refl s : Py.endswith s s = true.
Proof. destruct s; cbn [Py.endswith]; by rewrite bool_decide_eq_true_2. Qed.

Lemma endswith_app suf s : Py.endswith suf (s +:+ suf) = true.
Proof.
  induction s as [|c s IH].
  - apply endswith_refl.
  - change (String c s +:+ suf) with (String c (s +:+ suf)).
    cbn [Py.endswith]. rewrite IH. apply orb_true_r.
Qed.

(** Guard 4 fires on every name that ends with bot. *)
Lemma ends_with_bot_guard sender :
  ends_with_bot sender → is_other_bot sender = true.
Proof.
  intros (stem & b & o & t & trailing & -> & Hb & Ho & Ht & Hsp).
  assert (Py.rstrip (String b (String o (String t trailing)))
          = String b (String o (String t ""))) as Hrstrip.
  { cbn [Py.rstrip]. rewrite (rstrip_all_space _ Hsp).
    by destruct Hb as [-> | ->], Ho as [-> | ->], Ht as [-> | ->]. }
  assert (Py.lower (String b (String o (String t ""))) = "bot") as Hlower.
  { by destruct Hb as [-> | ->], Ho as [-> | ->], Ht as [-> | ->]. }
  unfold is_other_bot. apply andb_true_intro. split.
  { by destruct stem. }
  rewrite rstrip_app, Hrstrip by (rewrite Hrstrip; simpl; lia).
  rewrite lower_app, Hlower. apply endswith_app.
Qed.

(** The comparison of the IEEE specification is antisymmetric. *)
Lemma SFcompare_antisym x y : SFcompare y x = CompOpp <$> SFcompare x y.
Proof.
  destruct x as [sx|sx| |sx mx ex], y as [sy|sy| |sy my ey]; simpl;
    try done; try (by destruct sx); try (by destruct sy);
    try (by destruct sx, sy).
  destruct sx, sy; try done.
  - rewrite (Z.compare_antisym ex ey).
    destruct (ex ?= ey)%Z; simpl; try done.
    do 2 f_equal. change PosDef.Pos.compare_cont with Pos.compare_cont.
    by rewrite (Pos.compare_cont_antisym mx my Eq).
  - rewrite (Z.compare_antisym ex ey).
    destruct (ex ?= ey)%Z; simpl; try done.
    f_equal. change PosDef.Pos.compare_cont with Pos.compare_cont.
    by rewrite (Pos.compare_cont_antisym mx my Eq).
Qed.

(** On floats that are numbers, [x < y] being false means [y <= x]. *)
Lemma float_not_lt_ge (x y : float) :
  (x <? y)%float = false → is_nan x = false → is_nan y = false →
  (y <=? x)%float = true.
Proof.
  unfold is_nan. rewrite ltb_spec, leb_spec, !FloatAxioms.eqb_spec.
  unfold SFltb, SFleb, SFeqb.
  rewrite (SFcompare_antisym (Prim2SF x) (Prim2SF y)).
  intros Hlt Hx Hy.
  destruct (SFcompare (Prim2SF x) (Prim2SF y)) as [[]|] eqn:Hc;
    simpl; try done.
  destruct (Prim2SF x), (Prim2SF y); simpl in *; done.
Qed.

Lemma last_nonempty_any {A} (y d1 d2 : A) l :
  List.last (y :: l) d1 = List.last (y :: l) d2.
Proof.
  revert y. induction l as [|z l IH]; intros y; [done|].
  change (List.last (z :: l) d1 = List.last (z :: l) d2). apply IH.
Qed.

Lemma last_cons_any {A} (x d : A) l : List.last l x = List.last (x :: l) d.
Proof.
  destruct l as [|y l]; [done|].
  change (List.last (y :: l) x = List.last (y :: l) d).
  apply last_nonempty_any.
Qed.

Section bot.
Context `{!FloatFormat}.

(** The configured templates always format. *)
Lemma bot_reply_total text_lower template sender snr path_len path_hashes :
  matched_template text_lower = Some template →
  is_Some (bot_reply template sender snr path_len path_hashes).
Proof.
  unfold matched_template, BOT_KEYWORDS. cbn [List.find fst].
  unfold bot_reply, Py.format.
  generalize (_format_path path_len path_hashes) as path_str.
  generalize (match snr with Some x => format_1f x | None => "?" end)
    as snr_str.
  generalize (if Py.truthy sender then sender else "?") as sender_str.
  intros sender_str snr_str path_str.
  repeat case_match; intros [= <-]; cbv; eauto.
Qed.

(** One invocation: when the message qualifies and the cooldown is over,
    one reply is queued and the timestamp becomes the current time; in
    every other case the worker is left as it is. *)
Lemma bot_step_spec w c :
  let now := time_time (bc_env c) in
  if call_qualifies c && negb (cooldown_active now (_bot_last_reply w))
  then ∃ reply,
         bot_step w c
         = queue_reply now
             {| cmd_action := "send_message"; cmd_channel := BOT_CHANNEL;
                cmd_text := reply; cmd_bot := true |} w
  else bot_step w c = w.
Proof.
  unfold bot_step, call_qualifies, qualifies, _bot_check_and_queue.
  destruct (is_bot_enabled _); [|done].
  destruct (bool_decide (_ = Some BOT_CHANNEL)); [|done].
  destruct (is_own_message _ _); [done|].
  destruct (is_other_bot _); [done|].
  cbn [andb negb].
  destruct (matched_template _) as [template|] eqn:Htemplate.
  - destruct (cooldown_active _ _); [done|].
    destruct (bot_reply_total _ _ (bc_sender c) (bc_snr c) (bc_path_len c)
                (bc_path_hashes c) Htemplate) as [reply ->].
    by exists reply.
  - by destruct (cooldown_active _ _).
Qed.

(** Over a sequence of invocations the queue grows by one command for
    each answered invocation, and the timestamp is the time of the last
    answered one. *)
Lemma bot_run_answered calls w :
  let done := answered (_bot_last_reply w) calls in
  length (commands (bot_run w calls)) = length (commands w) + length done
  ∧ _bot_last_reply (bot_run w calls)
    = List.last ((λ c, time_time (bc_env c)) <$> done) (_bot_last_reply w).
Proof.
  unfold bot_run. revert w. induction calls as [|c calls IH]; intros w.
  - simpl. split; [lia|done].
  - cbn [foldl answered]. cbv zeta.
    pose proof (bot_step_spec w c) as Hstep. cbv zeta in Hstep.
    unfold cooldown_active in Hstep.
    destruct (call_qualifies c && negb _).
    + destruct Hstep as [reply ->].
      destruct (IH (queue_reply (time_time (bc_env c))
                      {| cmd_action := "send_message";
                         cmd_channel := BOT_CHANNEL;
                         cmd_text := reply; cmd_bot := true |} w))
        as [Hlen Hlast].
      cbv zeta in Hlen, Hlast. cbn [_bot_last_reply queue_reply] in Hlen, Hlast.
      split.
      * rewrite Hlen. unfold queue_reply. cbn [commands].
        rewrite length_app. simpl. lia.
      * rewrite Hlast. cbn [fmap list_fmap]. apply last_cons_any.
    + rewrite Hstep. apply IH.
Qed.

(** C6. Cooldown enforcement.  One invocation of the bot trigger either
    leaves queue and cooldown timestamp alone, or appends one reply and
    sets the timestamp to the current time, and the latter only for a
    qualifying message at a time when the elapsed time [now - last] is not
    below [BOT_COOLDOWN_SECONDS], that is, when it is a number, is at
    least [BOT_COOLDOWN_SECONDS]; so the timestamp moves only when a
    reply is queued.  Over any sequence of invocations the replies queued are
    those of the cooldown rule [answered], and the timestamp is the time
    of the last one.  Hence, of two qualifying messages in one cooldown
    window only the first is answered, and a third one after the window
    is answered too. *)
Theorem cooldown_enforcement :
  (∀ w c,
     let now := time_time (bc_env c) in
     let w' := bot_step w c in
     (commands w' = commands w ∧ _bot_last_reply w' = _bot_last_reply w)
     ∨ (∃ cmd,
          commands w' = commands w ++ [cmd]
          ∧ _bot_last_reply w' = now
          ∧ call_qualifies c = true
          ∧ (now - _bot_last_reply w <? BOT_COOLDOWN_SECONDS)%float = false
          ∧ (is_nan (now - _bot_last_reply w) = false →
             (BOT_COOLDOWN_SECONDS <=? now - _bot_last_reply w)%float
             = true)))
  ∧ (∀ w calls,
       let done := answered (_bot_last_reply w) calls in
       length (commands (bot_run w calls))
       = length (commands w) + length done
       ∧ _bot_last_reply (bot_run w calls)
         = List.last ((λ c, time_time (bc_env c)) <$> done)
             (_bot_last_reply w))
  ∧ (∀ w c1 c2 c3,
       let t1 := time_time (bc_env c1) in
       let t2 := time_time (bc_env c2) in
       let t3 := time_time (bc_env c3) in
       call_qualifies c1 = true →
       call_qualifies c2 = true →
       call_qualifies c3 = true →
       (t1 - _bot_last_reply w <? BOT_COOLDOWN_SECONDS)%float = false →
       (t2 - t1 <? BOT_COOLDOWN_SECONDS)%float = true →
       (t3 - t1 <? BOT_COOLDOWN_SECONDS)%float = false →
       length (commands (bot_run w [c1; c2])) = length (commands w) + 1
       ∧ _bot_last_reply (bot_run w [c1; c2]) = t1
       ∧ length (commands (bot_run w [c1; c2; c3]))
         = length (commands w) + 2
       ∧ _bot_last_reply (bot_run w [c1; c2; c3]) = t3).
Proof.
  split_and!.
  - intros w c. cbv zeta.
    pose proof (bot_step_spec w c) as Hstep. cbv zeta in Hstep.
    destruct (call_qualifies c); [|left; by rewrite Hstep].
    unfold cooldown_active in Hstep.
    destruct (_ <? _)%float eqn:Hcool; [left; by rewrite Hstep|].
    destruct Hstep as [reply ->]. right. eexists. split_and!; try done.
    intros Hnum. by apply float_not_lt_ge.
  - intros w calls. apply bot_run_answered.
  - intros w c1 c2 c3 t1 t2 t3 Hq1 Hq2 Hq3 Hc1 Hc2 Hc3.
    destruct (bot_run_answered [c1; c2] w) as [Hlen2 Hlast2].
    destruct (bot_run_answered [c1; c2; c3] w) as [Hlen3 Hlast3].
    cbv zeta in Hlen2, Hlast2, Hlen3, Hlast3.
    cbn [answered] in Hlen2, Hlast2, Hlen3, Hlast3.
    fold t1 t2 t3 in Hlen2, Hlast2, Hlen3, Hlast3.
    rewrite Hq1, Hc1 in Hlen2, Hlast2, Hlen3, Hlast3.
    cbn [andb negb] in Hlen2, Hlast2, Hlen3, Hlast3.
    fold t2 t3 in Hlen2, Hlast2, Hlen3, Hlast3.
    rewrite Hq2, Hc2 in Hlen2, Hlast2, Hlen3, Hlast3.
    cbn [andb negb] in Hlen2, Hlast2, Hlen3, Hlast3.
    fold t3 in Hlen3, Hlast3.
    rewrite Hq3, Hc3 in Hlen3, Hlast3.
    cbn [andb negb] in Hlen3, Hlast3.
    by split_and!.
Qed.

(** C7. Bot guard short-circuit.  When the sender's display name, after
    its trailing white space, ends with bot in any letter case, the bot
    trigger queues no reply and leaves the cooldown timestamp as it is,
    whatever the text, the channel, the time and the state of the
    worker. *)
Theorem other_bot_never_answered e sender text channel_idx snr path_len
    path_hashes w :
  ends_with_bot sender →
  let w' :=
    _bot_check_and_queue e sender text channel_idx snr path_len path_hashes w in
  commands w' = commands w ∧ _bot_last_reply w' = _bot_last_reply w.
Proof.
  intros Hbot%ends_with_bot_guard. unfold _bot_check_and_queue.
  rewrite Hbot. by repeat case_match.
Qed.

End bot.

Lemma cooldown_enforcement_witness :
  let call t text :=
    {| bc_env := example_env t; bc_sender := "Alice"; bc_text := text;
       bc_channel_idx := Some 1%Z; bc_snr := Some 7.5%float;
       bc_path_len := 2; bc_path_hashes := Some ["8d"; "a8"] |} in
  let calls := [call 100%float "ping"; call 102%float "Test 2";
                call 105%float "help me"] in
  length (commands (@bot_run format_stub init (take 2 calls))) = 1
  ∧ _bot_last_reply (@bot_run format_stub init (take 2 calls)) = 100%float
  ∧ length (commands (@bot_run format_stub init calls)) = 2
  ∧ _bot_last_reply (@bot_run format_stub init calls) = 105%float.
Proof.
  intros call calls.
  destruct (@cooldown_enforcement format_stub) as (_ & _ & Hthree).
  apply (Hthree init (call 100%float "ping") (call 102%float "Test 2")
           (call 105%float "help me")); reflexivity.
Defined.

Lemma other_bot_never_answered_witness :
  let sender := "Relay BoT" +:+ Py.chr 160 +:+ " " +:+ Py.chr 12288 in
  let w := @_bot_check_and_queue format_stub (example_env 1000)
             sender "ping test" (Some 1%Z) None 0 None init in
  commands w = [] ∧ _bot_last_reply w = 0%float.
Proof.
  intros sender.
  apply (@other_bot_never_answered format_stub (example_env 1000)
           sender "ping test" (Some 1%Z) None 0%Z None init).
  exists "Relay ", "B"%char, "o"%char, "T"%char,
    (Py.chr 160 +:+ " " +:+ Py.chr 12288).
  split_and!; [reflexivity|by right|by left|by right|reflexivity].
Defined.

(* ================================================================== *)
(** * Route reconstruction *)
(* ================================================================== *)

Lemma range_step2_nonpos (stop : Z) : (stop ≤ 0)%Z → Py.range_step2 stop = [].
Proof.
  intros Hstop. unfold Py.range_step2.
  assert ((stop + 1) / 2 < 1)%Z as Hlt.
  { apply Z.div_lt_upper_bound; lia. }
  by replace (Z.to_nat ((stop + 1) / 2)) with 0 by lia.
Qed.

Lemma range_step2_add2 (stop : Z) :
  (0 ≤ stop)%Z →
  Py.range_step2 (stop + 2) = 0 :: ((λ i, 2 + i) <$> Py.range_step2 stop).
Proof.
  intros Hstop. unfold Py.range_step2.
  replace ((stop + 2 + 1) / 2)%Z with ((stop + 1) / 2 + 1)%Z
    by (rewrite <- Z.div_add by lia; f_equal; lia).
  rewrite Z2Nat.inj_add by (try apply Z.div_pos; lia).
  rewrite Nat.add_comm. simpl seq. cbn [fmap list_fmap].
  f_equal. rewrite <- seq_shift, <- !list_fmap_compose.
  apply list_fmap_ext. intros _ k _. simpl. lia.
Qed.

Lemma slice_first_pair a b rest :
  Py.slice 0 2 (String a (String b rest)) = String a (String b "").
Proof. by destruct rest. Qed.

Lemma out_path_hashes_short (out_path : string) (n : Z) :
  (n ≤ 0)%Z → out_path_hashes out_path n = [].
Proof.
  intros Hn. unfold out_path_hashes.
  rewrite range_step2_nonpos; [done|]. unfold Py.len. lia.
Qed.

Lemma out_path_hashes_pair a b rest (n : Z) :
  (0 < n)%Z →
  out_path_hashes (String a (String b rest)) n
  = String a (String b "") :: out_path_hashes rest (n - 1).
Proof.
  intros Hn. unfold out_path_hashes.
  replace (Py.len (String a (String b rest)) `min` (n * 2))%Z
    with ((Py.len rest `min` ((n - 1) * 2)) + 2)%Z
    by (unfold Py.len; simpl String.length; lia).
  rewrite range_step2_add2 by (unfold Py.len; lia).
  cbn [fmap list_fmap]. rewrite <- list_fmap_compose.
  cbn [List.filter]. rewrite slice_first_pair.
  rewrite bool_decide_eq_true_2 by done.
  cbn [Py.truthy andb]. f_equal.
Qed.

(** The loop of [_parse_out_path] cuts the first [out_path_len] complete
    two-character groups out of [out_path]. *)
Lemma out_path_hashes_groups (out_path : string) (n : Z) :
  out_path_hashes out_path n = take (Z.to_nat n) (hop_groups out_path).
Proof.
  remember (String.length out_path) as size eqn:Hsize.
  revert out_path n Hsize.
  induction size as [size IH] using lt_wf_ind. intros out_path n ->.
  destruct (decide (n ≤ 0)%Z) as [Hn|Hn].
  { rewrite out_path_hashes_short by done.
    by replace (Z.to_nat n) with 0 by lia. }
  destruct out_path as [|a [|b rest]].
  - cbn [hop_groups]. rewrite take_nil. unfold out_path_hashes.
    by rewrite range_step2_nonpos by (unfold Py.len; simpl; lia).
  - cbn [hop_groups]. rewrite take_nil. unfold out_path_hashes.
    by replace (Py.len (String a "") `min` (n * 2))%Z with 1%Z
      by (unfold Py.len; simpl; lia).
  - rewrite out_path_hashes_pair by lia.
    rewrite (IH (String.length rest)) with (n := (n - 1)%Z);
      [|simpl; lia|done].
    cbn [hop_groups].
    by replace (Z.to_nat n) with (S (Z.to_nat (n - 1))) by lia.
Qed.

(** The loop of [_resolve_hashes] skips the hashes that fail the length
    test and emits one node for each of the others. *)
Lemma resolve_hashes_filter hashes contacts :
  _resolve_hashes hashes contacts
  = (λ h, resolve_hop h contacts) <$> List.filter hop_hash_ok hashes.
Proof.
  induction hashes as [|h hashes IH]; [done|].
  cbn [_resolve_hashes List.filter]. unfold hop_hash_ok at 1.
  destruct (Py.truthy h); cbn [negb orb andb]; [|done].
  destruct (decide (Py.len h < 2)%Z) as [Hlt|Hge].
  - rewrite bool_decide_eq_true_2, bool_decide_eq_false_2 by lia. done.
  - rewrite bool_decide_eq_false_2, bool_decide_eq_true_2 by lia.
    cbn [fmap list_fmap]. by rewrite IH.
Qed.

Lemma resolve_hop_pubkey h contacts : n_pubkey (resolve_hop h contacts) = h.
Proof. unfold resolve_hop. by repeat case_match. Qed.

Lemma hop_hash_ok_length h : hop_hash_ok h = true ↔ 2 ≤ String.length h.
Proof.
  unfold hop_hash_ok, Py.len. destruct h as [|c h].
  - simpl. split; [done|lia].
  - cbn [Py.truthy andb]. rewrite bool_decide_eq_true. lia.
Qed.

(** C8, as the code has it.  [_resolve_hashes] emits one hop for each
    input hash of two or more characters, in order and carrying that hash;
    a hash that matches no contact gives the placeholder hop (name [-],
    latitude, longitude and type 0).  Shorter hashes are skipped.  So the
    number of hops is the number of input hashes of two or more
    characters, and it is the number of input hashes when all of them are
    that long. *)
Theorem resolve_hashes_hop_count hashes contacts :
  let hops := _resolve_hashes hashes contacts in
  let kept := List.filter hop_hash_ok hashes in
  n_pubkey <$> hops = kept
  ∧ length hops = length kept
  ∧ (∀ i h, kept !! i = Some h →
            _find_contact_by_pubkey_hash h contacts = None →
            hops !! i = Some (placeholder_node h))
  ∧ (Forall (λ h, 2 ≤ String.length h) hashes →
     length hops = length hashes).
Proof.
  cbv zeta. rewrite resolve_hashes_filter. split_and!.
  - rewrite <- list_fmap_compose.
    rewrite <- (list_fmap_id (List.filter hop_hash_ok hashes)) at 2.
    apply list_fmap_ext. intros _ h _. apply resolve_hop_pubkey.
  - by rewrite length_fmap.
  - intros i h Hi Hnone. rewrite list_lookup_fmap, Hi. simpl.
    unfold resolve_hop. by rewrite Hnone.
  - intros Hall. rewrite length_fmap, filter_all_ok; [done|].
    eapply Forall_impl; [exact Hall|]. intros h. apply hop_hash_ok_length.
Qed.

Lemma resolve_hashes_hop_count_witness :
  let hops := _resolve_hashes ["8d"; "a8"; "ff"] [] in
  length hops = 3 ∧ hops !! 1 = Some (placeholder_node "a8").
Proof.
  destruct (resolve_hashes_hop_count ["8d"; "a8"; "ff"] [])
    as (_ & _ & Hplace & Hlen).
  split.
  - apply Hlen. repeat constructor.
  - apply Hplace; reflexivity.
Defined.

(** C8, as the claim states it, fails: a hash shorter than two characters
    is left out, so two hops come out of four hashes here; and the
    placeholder's name is a dash, not the empty string. *)
Lemma short_hashes_are_omitted :
  _resolve_hashes ["8d"; "a"; ""; "f1"] []
  = [placeholder_node "8d"; placeholder_node "f1"]
  ∧ length (_resolve_hashes ["8d"; "a"; ""; "f1"] [])
    ≠ length ["8d"; "a"; ""; "f1"]
  ∧ n_name (placeholder_node "8d") = "-".
Proof. split_and!; [reflexivity|vm_compute; lia|reflexivity]. Qed.

Section route_builder.
Context `{!ContactLookup}.

(** [build] takes its path nodes and their source from [resolve_path],
    run on the contact the sender lookup left. *)
Lemma build_path msg data :
  (r_path_nodes (build msg data), r_path_source (build msg data))
  = resolve_path msg (lookup_sender msg).2 (s_contacts data).
Proof.
  unfold build. destruct (lookup_sender msg) as [sender sender_contact].
  simpl. by destruct (resolve_path _ _ _).
Qed.

(** C4. Route reconstruction priority.  A message with a non-empty
    [path_hashes] list has its route resolved from those hashes, with
    source [rx_log], whatever the sender lookup finds, so also when the
    sender's contact has a stored [out_path].  A message with an empty
    [path_hashes] list whose sender contact has [out_path_len] 2 and an
    [out_path] that is, or starts with, [8da8] gets exactly the two hops
    8d and a8, with source [contact_out_path].  In general the stored
    route is cut into its complete two-character groups and only the
    first [out_path_len] of them are used. *)
Theorem route_priority :
  (∀ msg data,
     m_path_hashes msg ≠ [] →
     r_path_nodes (build msg data)
     = _resolve_hashes (m_path_hashes msg) (s_contacts data)
     ∧ r_path_source (build msg data) = "rx_log")
  ∧ (∀ msg data c extra,
       m_path_hashes msg = [] →
       (lookup_sender msg).2 = Some c →
       c_out_path c = Some ("8da8" +:+ extra) →
       c_out_path_len c = Some 2%Z →
       r_path_nodes (build msg data)
       = [resolve_hop "8d" (s_contacts data);
          resolve_hop "a8" (s_contacts data)]
       ∧ n_pubkey <$> r_path_nodes (build msg data) = ["8d"; "a8"]
       ∧ r_path_source (build msg data) = "contact_out_path")
  ∧ (∀ out_path out_path_len contacts,
       _parse_out_path out_path out_path_len contacts
       = _resolve_hashes
           (take (Z.to_nat out_path_len) (hop_groups out_path)) contacts).
Proof.
  split_and!.
  - intros msg data Hhashes.
    pose proof (build_path msg data) as Hbuild.
    unfold resolve_path in Hbuild.
    destruct (m_path_hashes msg) as [|h hashes]; [done|].
    by injection Hbuild as -> ->.
  - intros msg data c extra Hempty Hcontact Hpath Hlen.
    pose proof (build_path msg data) as Hbuild.
    unfold resolve_path in Hbuild.
    rewrite Hempty, Hcontact in Hbuild.
    assert (contact_truthy c = true) as Htruthy.
    { unfold contact_truthy. rewrite Hpath.
      rewrite (bool_decide_eq_true_2 (is_Some (Some _))) by by eexists.
      by rewrite orb_true_r. }
    rewrite Htruthy, Hpath, Hlen in Hbuild. cbn [default] in Hbuild.
    change ("8da8" +:+ extra)
      with (String "8" (String "d" (String "a" (String "8" extra))))
      in Hbuild.
    cbn [Py.truthy andb negb] in Hbuild.
    rewrite bool_decide_eq_false_2, bool_decide_eq_true_2 in Hbuild by done.
    cbn [andb negb] in Hbuild.
    unfold _parse_out_path in Hbuild. rewrite out_path_hashes_groups in Hbuild.
    injection Hbuild as -> ->.
    split_and!; [done| |done].
    cbn [fmap list_fmap]. by rewrite !resolve_hop_pubkey.
  - intros out_path out_path_len contacts.
    unfold _parse_out_path. by rewrite out_path_hashes_groups.
Qed.

End route_builder.

Lemma route_priority_witness :
  let from_contact := @build example_store (example_message []) example_snapshot in
  let from_frame := @build example_store (example_message ["1c"]) example_snapshot in
  n_name <$> r_path_nodes from_contact = ["Hilltop"; "-"]
  ∧ n_pubkey <$> r_path_nodes from_contact = ["8d"; "a8"]
  ∧ r_path_source from_contact = "contact_out_path"
  ∧ r_path_nodes from_frame = [placeholder_node "1c"]
  ∧ r_path_source from_frame = "rx_log".
Proof.
  cbv zeta.
  destruct (@route_priority example_store) as (Hframe & Hcontact & _).
  destruct (Hframe (example_message ["1c"]) example_snapshot) as [Hn1 Hs1];
    [discriminate|].
  destruct (Hcontact (example_message []) example_snapshot example_contact "")
    as (Hn2 & Hp2 & Hs2); [reflexivity..|].
  rewrite Hn1, Hs1, Hn2, Hs2. by split_and!.
Defined.

(* ================================================================== *)
(** * Further properties of the dedup caches *)
(* ================================================================== *)

Lemma worker_eta w :
  Worker (_bot_last_reply w) (_seen_hashes w) (_seen_hashes_order w)
         (_seen_content w) (_seen_content_order w) (messages w) (rx_log w)
         (commands w) = w.
Proof. by destruct w. Qed.

Lemma content_cache_mark_content_seen sender channel text w :
  content_cache (_mark_content_seen sender channel text w)
  = mark (content_key sender channel text) (content_cache w).
Proof.
  unfold content_cache, _mark_content_seen. simpl. by destruct (mark _ _).
Qed.

Lemma cache_wf_elem_of c key : cache_wf c → key ∈ c.1 ↔ key ∈ c.2.
Proof. intros (_ & -> & _). apply elem_of_list_to_set. Qed.

(** X1. Whatever notifications arrive, in whatever order, the worker's
    two caches stay well formed: each order list is free of duplicates
    and lists exactly the keys of its set, and neither cache ever holds
    more than [_SEEN_HASHES_MAX] keys. *)
Theorem reachable_caches_bounded
    `{!ContactLookup, !PacketDecoder, !FloatFormat} (evs : list event) :
  let w := run init evs in
  worker_wf w
  ∧ size (_seen_hashes w) = length (_seen_hashes_order w)
  ∧ size (_seen_content w) = length (_seen_content_order w)
  ∧ size (_seen_hashes w) ≤ _SEEN_HASHES_MAX
  ∧ size (_seen_content w) ≤ _SEEN_HASHES_MAX
  ∧ (∀ h, _is_seen h w = true ↔ h ∈ _seen_hashes_order w).
Proof.
  cbv zeta. pose proof (run_wf init evs init_wf) as Hwf.
  destruct Hwf as [Hh Hc]. split; [done|].
  pose proof Hh as (Hnd1 & Hset1 & Hcap1).
  pose proof Hc as (Hnd2 & Hset2 & Hcap2).
  unfold hash_cache, content_cache in *. simpl in *.
  rewrite Hset1, Hset2, !size_list_to_set by done.
  split_and!; try done.
  intros h. unfold _is_seen. rewrite bool_decide_eq_true, Hset1.
  apply elem_of_list_to_set.
Qed.

(** X2. Marking is an insertion that never refreshes: once a hash has
    been marked it is seen, and marking a hash that is already seen
    changes nothing at all, so its place in the eviction order stays (the
    cache is first-in first-out, not least-recently-used). *)
Theorem mark_seen_no_refresh (h : string) (w : worker) :
  (_is_seen h w = true → _mark_seen h w = w)
  ∧ (cache_wf (hash_cache w) →
     _is_seen h (_mark_seen h w) = true
     ∧ _mark_seen h (_mark_seen h w) = _mark_seen h w).
Proof.
  assert (∀ w', _is_seen h w' = true → _mark_seen h w' = w') as Hnoop.
  { intros w' Hseen%bool_decide_eq_true. unfold _mark_seen.
    rewrite mark_present by done. apply worker_eta. }
  split; [apply Hnoop|]. intros Hwf.
  assert (_is_seen h (_mark_seen h w) = true) as Hseen.
  { apply bool_decide_eq_true.
    change (_seen_hashes (_mark_seen h w)) with (hash_cache (_mark_seen h w)).1.
    rewrite hash_cache_mark_seen. by apply mark_elem_of. }
  split; [done|]. by apply Hnoop.
Qed.

Lemma mark_seen_no_refresh_witness :
  let w := mark_seen_all ["aa"; "bb"; "cc"] init in
  _mark_seen "aa" w = w
  ∧ _seen_hashes_order (_mark_seen "aa" w) = ["aa"; "bb"; "cc"]
  ∧ _is_seen "dd" (_mark_seen "dd" w) = true.
Proof.
  cbv zeta.
  destruct (mark_seen_no_refresh "aa" (mark_seen_all ["aa"; "bb"; "cc"] init))
    as [Hnoop _].
  destruct (mark_seen_no_refresh "dd" (mark_seen_all ["aa"; "bb"; "cc"] init))
    as [_ Hfresh].
  rewrite Hnoop by (vm_compute; reflexivity).
  split_and!; [done|done|].
  apply Hfresh. rewrite hash_cache_mark_seen_all. apply mark_all_wf.
Defined.

(** X3. One insertion of a new hash into a well-formed cache.  Below
    capacity nothing is evicted: the hash goes to the end of the order
    list and every other hash is seen exactly as before.  At capacity
    exactly the oldest hash is evicted: the order list loses its head and
    gains the new hash at the end, the oldest hash is no longer seen, and
    every hash other than these two is seen exactly as before. *)
Theorem mark_seen_step (h : string) (w : worker) :
  cache_wf (hash_cache w) →
  _is_seen h w = false →
  (length (_seen_hashes_order w) < _SEEN_HASHES_MAX →
   _seen_hashes_order (_mark_seen h w) = _seen_hashes_order w ++ [h]
   ∧ ∀ k, k ≠ h → _is_seen k (_mark_seen h w) = _is_seen k w)
  ∧ (∀ oldest rest,
       _seen_hashes_order w = oldest :: rest →
       length (_seen_hashes_order w) = _SEEN_HASHES_MAX →
       _seen_hashes_order (_mark_seen h w) = rest ++ [h]
       ∧ _is_seen oldest (_mark_seen h w) = false
       ∧ ∀ k, k ≠ h → k ≠ oldest →
              _is_seen k (_mark_seen h w) = _is_seen k w).
Proof.
  intros Hwf Hfresh%bool_decide_eq_false.
  pose proof (hash_cache_mark_seen h w) as Hmark.
  rewrite mark_fresh in Hmark by done.
  assert (_seen_hashes (_mark_seen h w)
          = list_to_set (last_n _SEEN_HASHES_MAX (_seen_hashes_order w ++ [h])))
    as Hset by exact (f_equal fst Hmark).
  assert (_seen_hashes_order (_mark_seen h w)
          = last_n _SEEN_HASHES_MAX (_seen_hashes_order w ++ [h]))
    as Hord by exact (f_equal snd Hmark).
  pose proof Hwf as (Hnd & Hw & Hcap). simpl in Hnd, Hw, Hcap.
  unfold _is_seen. rewrite Hset, Hord, Hw. split.
  - intros Hlen.
    rewrite last_n_short by (rewrite length_app; simpl; lia).
    split; [done|]. intros k Hk.
    apply bool_decide_ext.
    rewrite !elem_of_list_to_set, elem_of_app, list_elem_of_singleton.
    intuition congruence.
  - intros oldest rest Horder Hlen. rewrite Horder in *.
    assert (last_n _SEEN_HASHES_MAX ((oldest :: rest) ++ [h]) = rest ++ [h])
      as ->.
    { unfold last_n. rewrite length_app. simpl length in *.
      by replace (S (length rest) + 1 - _SEEN_HASHES_MAX) with 1 by lia. }
    apply NoDup_cons in Hnd as [Hold Hnd].
    split_and!; [done| |].
    + apply bool_decide_eq_false.
      rewrite elem_of_list_to_set, elem_of_app, list_elem_of_singleton.
      intros [?| ->]; [done|]. apply Hfresh. rewrite Hw.
      apply elem_of_list_to_set. by left.
    + intros k Hk Hko. apply bool_decide_ext.
      rewrite !elem_of_list_to_set, elem_of_app, list_elem_of_singleton,
        elem_of_cons.
      intuition congruence.
Qed.

Lemma mark_seen_step_witness :
  let w := mark_seen_all ((λ n : nat, pretty n) <$> seq 0 200) init in
  _seen_hashes_order (_mark_seen "new" w)
  = ((λ n : nat, pretty n) <$> seq 1 199) ++ ["new"]
  ∧ _is_seen "0" (_mark_seen "new" w) = false.
Proof.
  cbv zeta.
  destruct (mark_seen_step "new"
              (mark_seen_all ((λ n : nat, pretty n) <$> seq 0 200) init))
    as [_ Hfull].
  - rewrite hash_cache_mark_seen_all. apply mark_all_wf.
  - vm_compute. reflexivity.
  - destruct (Hfull "0" ((λ n : nat, pretty n) <$> seq 1 199)) as (Ho & Hs & _).
    + vm_compute. reflexivity.
    + vm_compute. reflexivity.
    + by split.
Defined.

(** X4. The two caches are independent and the content cache answers for
    what was put in it: after [_mark_content_seen] the same sender,
    channel and text are reported as seen (on a well-formed cache), the
    hash cache is as before; and [_mark_seen] leaves the content cache as
    before.  Neither publishes or queues anything. *)
Theorem content_cache_round_trip (sender text h : string)
    (channel : option Z) (w : worker) :
  (cache_wf (content_cache w) →
   _is_content_seen sender channel text
     (_mark_content_seen sender channel text w) = true)
  ∧ hash_cache (_mark_content_seen sender channel text w) = hash_cache w
  ∧ content_cache (_mark_seen h w) = content_cache w
  ∧ messages (_mark_content_seen sender channel text w) = messages w
  ∧ messages (_mark_seen h w) = messages w
  ∧ commands (_mark_content_seen sender channel text w) = commands w
  ∧ commands (_mark_seen h w) = commands w.
Proof.
  split_and!; try done.
  intros Hwf. apply bool_decide_eq_true.
  change (_seen_content (_mark_content_seen sender channel text w))
    with (content_cache (_mark_content_seen sender channel text w)).1.
  rewrite content_cache_mark_content_seen. by apply mark_elem_of.
Qed.

Lemma content_cache_round_trip_witness :
  _is_content_seen "Alice" (Some 1%Z) "ping"
    (_mark_content_seen "Alice" (Some 1%Z) "ping" init) = true.
Proof.
  destruct (content_cache_round_trip "Alice" "ping" "" (Some 1%Z) init)
    as [Hseen _].
  apply Hseen, cache_wf_empty.
Defined.

(* ================================================================== *)
(** * When content keys collide *)
(* ================================================================== *)

Lemma pretty_N_char_plain x : plain_char (pretty_N_char x) = true.
Proof. unfold pretty_N_char. by repeat case_match. Qed.

Lemma pretty_N_go_plain x s :
  all_chars plain_char s = true → all_chars plain_char (pretty_N_go x s) = true.
Proof.
  revert s. induction (N.lt_wf_0 x) as [x _ IH]; intros s Hs.
  assert (x = 0 ∨ 0 < x)%N as [->|Hpos] by lia.
  - by rewrite pretty_N_go_0.
  - rewrite pretty_N_go_step by done. apply IH.
    + by apply N.div_lt.
    + simpl. by rewrite pretty_N_char_plain, Hs.
Qed.

Lemma pretty_N_plain (x : N) : all_chars plain_char (pretty x) = true.
Proof.
  unfold pretty, pretty_N. case_decide; [done|]. by apply pretty_N_go_plain.
Qed.

Lemma pretty_Z_plain (x : Z) : all_chars plain_char (pretty x) = true.
Proof.
  destruct x as [|p|p]; [done|apply pretty_N_plain|].
  unfold pretty, pretty_Z.
  change ("-" +:+ pretty p) with (String "-" (pretty p)).
  simpl. apply pretty_N_plain.
Qed.

Lemma all_chars_no_colon s :
  all_chars plain_char s = true → Py.contains ":" s = false.
Proof.
  induction s as [|c s IH]; [done|]. simpl.
  intros [Hc Hs]%andb_prop. rewrite (IH Hs), orb_false_r, andb_true_r.
  apply bool_decide_eq_false. intros <-. done.
Qed.

Lemma str_opt_int_no_colon c : Py.contains ":" (Py.str_opt_int c) = false.
Proof.
  destruct c as [z|]; [|done]. apply all_chars_no_colon, pretty_Z_plain.
Qed.

Lemma str_opt_int_inj c1 c2 : Py.str_opt_int c1 = Py.str_opt_int c2 → c1 = c2.
Proof.
  destruct c1 as [z1|], c2 as [z2|]; simpl; unfold Py.str_int.
  - by intros ->%(inj pretty).
  - intros Heq. pose proof (pretty_Z_plain z1) as Hp. by rewrite Heq in Hp.
  - intros Heq. pose proof (pretty_Z_plain z2) as Hp. by rewrite <- Heq in Hp.
  - done.
Qed.

Lemma split_at_colon a1 a2 r1 r2 :
  Py.contains ":" a1 = false → Py.contains ":" a2 = false →
  a1 +:+ String ":" r1 = a2 +:+ String ":" r2 → a1 = a2 ∧ r1 = r2.
Proof.
  revert a2. induction a1 as [|c a1 IH]; intros [|c2 a2] H1 H2 Heq.
  - by injection Heq as ->.
  - injection Heq as <- _. done.
  - injection Heq as -> _. done.
  - injection Heq as -> Heq.
    simpl in H1, H2.
    apply orb_false_elim in H1 as [_ H1], H2 as [_ H2].
    destruct (IH a2 H1 H2 Heq) as [-> ->]. done.
Qed.

(** X5. The content key tells apart all messages whose sender names hold
    no colon: two keys built from such senders are equal only when
    channel, sender and text are all equal.  So a content-key collision
    between different messages needs a colon in a sender name. *)
Theorem content_key_injective_without_colon s1 s2 c1 c2 t1 t2 :
  Py.contains ":" s1 = false → Py.contains ":" s2 = false →
  content_key s1 c1 t1 = content_key s2 c2 t2 →
  c1 = c2 ∧ s1 = s2 ∧ t1 = t2.
Proof.
  intros H1 H2. unfold content_key.
  change (":" +:+ ?x) with (String ":" x).
  intros Heq.
  apply split_at_colon in Heq as [Hc Heq]; [|apply str_opt_int_no_colon..].
  apply split_at_colon in Heq as [-> ->]; [|done..].
  by apply str_opt_int_inj in Hc as ->.
Qed.

Lemma content_key_injective_without_colon_witness :
  content_key "Alice" (Some 1%Z) "b:c" ≠ content_key "Bob" None "b:c".
Proof.
  intros Heq.
  apply (content_key_injective_without_colon "Alice" "Bob" (Some 1%Z) None
           "b:c" "b:c") in Heq as (Hc & _ & _); [discriminate|reflexivity..].
Defined.

(* ================================================================== *)
(** * Further properties of the callbacks and the bot *)
(* ================================================================== *)

Section more_callbacks.
Context `{!ContactLookup, !PacketDecoder, !FloatFormat}.

(** A raw frame either decodes to a message or leaves only its entry in
    the RX log. *)
Lemma on_rx_log_cases e rx w :
  (∃ d, decodes_to rx d)
  ∨ _on_rx_log e rx w = add_rx_log (rx_entry e rx) w.
Proof.
  unfold _on_rx_log, decodes_to.
  destruct (rx_payload rx) as [payload_hex|]; [|by right]. simpl default.
  destruct (Py.truthy payload_hex) eqn:Htruthy; [|by right].
  destruct (decode payload_hex) as [d|] eqn:Hdecode; [|by right].
  destruct (is_message d) eqn:Hmsg; [|by right].
  left. exists d, payload_hex. done.
Qed.

(** X6. Every raw-frame notification leaves exactly one entry in the RX
    log, whether or not its payload is present, decodes, or is a message;
    the fallback callback never writes to the RX log. *)
Theorem rx_log_always_recorded e rx p w :
  rx_log (_on_rx_log e rx w) = rx_log w ++ [rx_entry e rx]
  ∧ rx_log (_on_channel_msg e p w) = rx_log w.
Proof.
  split.
  - destruct (on_rx_log_cases e rx w) as [[d Hd]| ->]; [|done].
    rewrite (on_rx_log_message _ _ _ _ Hd).
    destruct (bot_check_frame e (d_sender d) (d_text d)
      (Some (d_channel_idx d)) (rx_snr rx) (d_path_length d)
      (Some (d_path_hashes d))
      (add_message (rx_message e rx d)
         (_mark_content_seen (d_sender d) (Some (d_channel_idx d)) (d_text d)
            (_mark_seen (d_message_hash d) (add_rx_log (rx_entry e rx) w)))))
      as (_ & -> & _).
    simpl. by repeat destruct (mark _ _).
  - rewrite on_channel_msg_cases. cbv zeta. destruct (_ || _); [done|].
    by rewrite (proj1 (proj2 (bot_check_frame _ _ _ _ _ _ _ _))).
Qed.

(** X7. A raw frame that is not a message changes nothing but the RX
    log: when the payload is missing or empty, or does not decode, or
    decodes to a packet that is not GroupText or not decrypted, then no
    message is published, no key is marked and the bot is not asked. *)
Theorem non_message_frame_only_logged e rx w :
  (default "" (rx_payload rx) = ""
   ∨ decode (default "" (rx_payload rx)) = None
   ∨ ∃ d, decode (default "" (rx_payload rx)) = Some d
          ∧ (d_payload_type d ≠ GroupText ∨ d_is_decrypted d = false)) →
  _on_rx_log e rx w = add_rx_log (rx_entry e rx) w.
Proof.
  intros Hcase. unfold _on_rx_log.
  destruct Hcase as [-> | [-> | (d & -> & Hd)]].
  - done.
  - by destruct (Py.truthy _).
  - destruct (Py.truthy _); [|done]. simpl negb. cbv iota.
    unfold is_message.
    destruct Hd as [Hty | ->].
    + by rewrite bool_decide_eq_false_2.
    + by rewrite andb_false_r.
Qed.

(** Every reply of the bot starts with the bot's name. *)
Lemma bot_reply_starts_with_name text_lower template sender snr path_len
    path_hashes reply :
  matched_template text_lower = Some template →
  bot_reply template sender snr path_len path_hashes = Some reply →
  Py.startswith BOT_NAME reply = true.
Proof.
  unfold matched_template, BOT_KEYWORDS, bot_reply, Py.format.
  cbn [List.find fst].
  generalize (_format_path path_len path_hashes) as path_str.
  generalize (match snr with Some x => format_1f x | None => "?" end)
    as snr_str.
  generalize (if Py.truthy sender then sender else "?") as sender_str.
  intros sender_str snr_str path_str.
  repeat case_match; intros [= <-] Hreply; cbv in Hreply;
    by injection Hreply as <-.
Qed.

Local Ltac nothing_queued :=
  exists nil; rewrite app_nil_r; split_and!; [done|simpl; lia|constructor].

(** The bot queues nothing, or one bot command. *)
Lemma bot_check_appends e sender text channel_idx snr path_len path_hashes w :
  ∃ cs,
    commands (_bot_check_and_queue e sender text channel_idx snr path_len
                path_hashes w) = commands w ++ cs
    ∧ length cs ≤ 1 ∧ Forall is_bot_command cs.
Proof.
  unfold _bot_check_and_queue.
  destruct (negb (is_bot_enabled e));
    [nothing_queued|].
  destruct (negb (bool_decide (channel_idx = Some BOT_CHANNEL)));
    [nothing_queued|].
  destruct (is_own_message sender text);
    [nothing_queued|].
  destruct (is_other_bot sender);
    [nothing_queued|].
  destruct (cooldown_active _ _);
    [nothing_queued|].
  destruct (matched_template _) as [template|] eqn:Htemplate;
    [|nothing_queued].
  destruct (bot_reply _ _ _ _ _) as [reply|] eqn:Hreply;
    [|nothing_queued].
  eexists [_]. split_and!; [done|done|].
  constructor; [|done]. split_and!; try done. simpl.
  by eapply bot_reply_starts_with_name.
Qed.

(** One callback run publishes at most one message and queues at most
    one command, both at the end of what was there. *)
Lemma handle_appends w ev :
  ∃ ms cs,
    messages (handle w ev) = messages w ++ ms ∧ length ms ≤ 1
    ∧ commands (handle w ev) = commands w ++ cs ∧ length cs ≤ 1
    ∧ Forall is_bot_command cs.
Proof.
  pose proof bot_check_appends as Hbot.
  destruct ev as [e rx|e p]; simpl handle.
  - destruct (on_rx_log_cases e rx w) as [[d Hd]| ->].
    + rewrite (on_rx_log_message _ _ _ _ Hd).
      edestruct Hbot as (cs & -> & Hlen & Hcs).
      rewrite (proj1 (bot_check_frame _ _ _ _ _ _ _ _)).
      exists [rx_message e rx d], cs. simpl.
      split_and!; [by repeat destruct (mark _ _)|done| |done|done].
      by repeat destruct (mark _ _).
    + exists nil, nil. simpl. rewrite !app_nil_r.
      split_and!; [done|lia|done|lia|constructor].
  - rewrite on_channel_msg_cases. cbv zeta. destruct (_ || _).
    + exists nil, nil. simpl. rewrite !app_nil_r.
      split_and!; [done|lia|done|lia|constructor].
    + edestruct Hbot as (cs & -> & Hlen & Hcs).
      rewrite (proj1 (bot_check_frame _ _ _ _ _ _ _ _)).
      by exists [channel_message e p], cs.
Qed.

(** X8. The published messages and the command queue only grow, at their
    ends: after any notifications the earlier messages and commands are
    still there, in place, and each notification has added at most one
    message and at most one command. *)
Theorem run_append_only w evs :
  messages w `prefix_of` messages (run w evs)
  ∧ commands w `prefix_of` commands (run w evs)
  ∧ length (messages (run w evs)) ≤ length (messages w) + length evs
  ∧ length (commands (run w evs)) ≤ length (commands w) + length evs.
Proof.
  unfold run. revert w. induction evs as [|ev evs IH]; intros w.
  - simpl. split_and!; [done|done|lia|lia].
  - simpl foldl.
    destruct (handle_appends w ev) as (ms & cs & Hm & Hml & Hc & Hcl & _).
    destruct (IH (handle w ev)) as (Hpm & Hpc & Hlm & Hlc).
    rewrite Hm, Hc in *. rewrite length_app in Hlm, Hlc. simpl length.
    split_and!.
    + etrans; [|exact Hpm]. by apply prefix_app_r.
    + etrans; [|exact Hpc]. by apply prefix_app_r.
    + lia.
    + lia.
Qed.

Lemma queued_commands_bot w evs c :
  c ∈ commands (run w evs) → c ∈ commands w ∨ is_bot_command c.
Proof.
  unfold run. revert w. induction evs as [|ev evs IH]; intros w Hc.
  - by left.
  - simpl foldl in Hc. apply IH in Hc as [Hc|Hc]; [|by right].
    destruct (handle_appends w ev) as (ms & cs & _ & _ & Hcs & _ & Hall).
    rewrite Hcs in Hc. apply elem_of_app in Hc as [Hc|Hc]; [by left|].
    right. by eapply Forall_forall in Hall.
Qed.

(** X9. Every command the callbacks queue is a bot command: a channel
    message for [BOT_CHANNEL], tagged [_bot], whose text starts with
    [BOT_NAME]. *)
Theorem queued_commands_are_bot_replies w evs c :
  c ∈ commands (run w evs) → c ∈ commands w ∨ is_bot_command c.
Proof. apply queued_commands_bot. Qed.

(** X10. The bot never answers its own replies: a message whose text is
    the text of a command queued by the callbacks, as the radio echo of a
    sent reply is, passes through the bot trigger without any effect,
    whoever its sender is said to be and however long ago the last reply
    was. *)
Theorem bot_ignores_own_replies evs c e sender channel_idx snr path_len
    path_hashes w :
  c ∈ commands (run init evs) →
  _bot_check_and_queue e sender (cmd_text c) channel_idx snr path_len
    path_hashes w = w.
Proof.
  intros Hc.
  apply queued_commands_bot in Hc as [Hc|(_ & _ & _ & Hname)].
  { by apply elem_of_nil in Hc. }
  unfold _bot_check_and_queue, is_own_message.
  assert (Py.truthy (cmd_text c) = true) as ->.
  { by destruct (cmd_text c). }
  rewrite Hname, orb_true_r. by repeat case_match.
Qed.

(** X11. While the bot is switched off nothing is queued and the cooldown
    timestamp does not move, whatever arrives. *)
Theorem bot_disabled_no_replies w evs :
  Forall (λ ev, is_bot_enabled (event_env ev) = false) evs →
  commands (run w evs) = commands w
  ∧ _bot_last_reply (run w evs) = _bot_last_reply w.
Proof.
  assert (∀ e sender text channel_idx snr path_len path_hashes w0,
            is_bot_enabled e = false →
            _bot_check_and_queue e sender text channel_idx snr path_len
              path_hashes w0 = w0) as Hoff.
  { intros e ? ? ? ? ? ? w0 He. unfold _bot_check_and_queue. by rewrite He. }
  unfold run. revert w. induction evs as [|ev evs IH]; intros w Hall; [done|].
  apply Forall_cons in Hall as [Hev Hall]. simpl foldl.
  destruct (IH (handle w ev) Hall) as [-> ->].
  destruct ev as [e rx|e p]; simpl in Hev |- *.
  - destruct (on_rx_log_cases e rx w) as [[d Hd]| ->]; [|done].
    rewrite (on_rx_log_message _ _ _ _ Hd), Hoff by done.
    simpl. by repeat destruct (mark _ _).
  - rewrite on_channel_msg_cases. cbv zeta. destruct (_ || _); [done|].
    by rewrite Hoff.
Qed.

End more_callbacks.

Lemma non_message_frame_only_logged_witness :
  @_on_rx_log no_contacts no_decoder format_stub (example_env 100) example_rx
    init
  = add_rx_log (rx_entry (example_env 100) example_rx) init.
Proof.
  apply (@non_message_frame_only_logged no_contacts no_decoder format_stub).
  right. left. reflexivity.
Defined.

Lemma queued_commands_are_bot_replies_witness :
  let c := {| cmd_action := "send_message"; cmd_channel := 1;
              cmd_text := "Zwolle Bot: Pong!"; cmd_bot := true |} in
  is_bot_command c.
Proof.
  intros c.
  destruct (@queued_commands_are_bot_replies no_contacts
              (decoder_of example_packet) format_stub init
              [RxLogData (example_env 100) example_rx] c) as [Hc|Hc].
  - vm_compute. apply list_elem_of_here.
  - vm_compute in Hc. by apply elem_of_nil in Hc.
  - exact Hc.
Defined.

Lemma bot_ignores_own_replies_witness :
  @_bot_check_and_queue format_stub (example_env 1000) "Alice"
    "Zwolle Bot: Pong!" (Some 1%Z) None 0 None init = init.
Proof.
  apply (@bot_ignores_own_replies no_contacts (decoder_of example_packet)
           format_stub [RxLogData (example_env 100) example_rx]
           {| cmd_action := "send_message"; cmd_channel := 1;
              cmd_text := "Zwolle Bot: Pong!"; cmd_bot := true |}).
  vm_compute. apply list_elem_of_here.
Defined.

Lemma bot_disabled_no_replies_witness :
  commands (@run no_contacts (decoder_of example_packet) format_stub init
              [RxLogData (example_env_off 100) example_rx;
               ChannelMsgRecv (example_env_off 200) example_fallback]) = [].
Proof.
  apply (@bot_disabled_no_replies no_contacts (decoder_of example_packet)
           format_stub init).
  repeat constructor.
Defined.

(* ================================================================== *)
(** * What the bot says, and how channel texts are split *)
(* ================================================================== *)

Lemma string_app_empty_r s : s +:+ "" = s.
Proof.
  induction s as [|c s IH]; [done|].
  change (String c s +:+ "") with (String c (s +:+ "")). by rewrite IH.
Qed.

Section replies.
Context `{!FloatFormat}.

Lemma bot_reply_expected sender text snr path_len path_hashes template :
  matched_template (Py.lower text) = Some template →
  bot_reply template sender snr path_len path_hashes
  = Some (expected_reply sender text snr path_len path_hashes).
Proof.
  unfold matched_template, BOT_KEYWORDS, bot_reply, Py.format, expected_reply.
  cbn [List.find fst].
  generalize (_format_path path_len path_hashes) as path_str.
  generalize (match snr with Some x => format_1f x | None => "?" end)
    as snr_str.
  generalize (if Py.truthy sender then sender else "?") as sender_str.
  intros sender_str snr_str path_str.
  pose proof (string_app_empty_r path_str) as Hpath.
  destruct (Py.contains "test" _).
  { intros [= <-]. cbv in Hpath |- *. by rewrite Hpath. }
  destruct (Py.contains "ping" _).
  { by intros [= <-]. }
  destruct (Py.contains "help" _); [|done].
  by intros [= <-].
Qed.

(** X12. What the bot answers.  A qualifying message outside the cooldown
    gets one reply on [BOT_CHANNEL], tagged [_bot], and the cooldown
    restarts at the current time.  If its text contains [test], in any
    letter case, the reply is the bot's name, the sender ([?] when
    empty), the signal quality to one decimal ([?] when unknown) and the
    path descriptor; otherwise, if it contains [ping], the reply is
    [Pong!]; otherwise it is the list of keywords. *)
Theorem bot_reply_text w c :
  call_qualifies c = true →
  cooldown_active (time_time (bc_env c)) (_bot_last_reply w) = false →
  bot_step w c
  = queue_reply (time_time (bc_env c))
      {| cmd_action := "send_message";
         cmd_channel := BOT_CHANNEL;
         cmd_text := expected_reply (bc_sender c) (bc_text c) (bc_snr c)
                       (bc_path_len c) (bc_path_hashes c);
         cmd_bot := true |} w.
Proof.
  unfold call_qualifies, qualifies, bot_step, _bot_check_and_queue.
  intros Hq Hcool.
  destruct (is_bot_enabled _); [|done].
  destruct (bool_decide (_ = Some BOT_CHANNEL)); [|done].
  destruct (is_own_message _ _); [done|].
  destruct (is_other_bot _); [done|].
  rewrite Hcool. cbn [negb].
  destruct (matched_template _) as [template|] eqn:Htemplate; [|done].
  by rewrite (bot_reply_expected _ _ _ _ _ _ Htemplate).
Qed.

End replies.

Lemma bot_reply_text_witness :
  let c := {| bc_env := example_env 100; bc_sender := "";
              bc_text := "Ping? TEST!"; bc_channel_idx := Some 1%Z;
              bc_snr := None; bc_path_len := 3;
              bc_path_hashes := Some ["8d"; "a8"] |} in
  cmd_text <$> commands (@bot_step format_stub init c)
  = ["Zwolle Bot: ?, rcvd | SNR ? | path(3); 8D>A8"].
Proof.
  intros c.
  rewrite (@bot_reply_text format_stub init c); reflexivity.
Defined.

Lemma contains_app_r needle s s' :
  Py.contains needle s' = true → Py.contains needle (s +:+ s') = true.
Proof.
  intros Hs'. induction s as [|c s IH]; [done|].
  change (String c s +:+ s') with (String c (s +:+ s')).
  cbn [Py.contains]. rewrite IH. apply orb_true_r.
Qed.

(** The first [": "] of a name without one, followed by [": "] and a
    body, is the one after the name. *)
Lemma split_once_name_body name body :
  Py.contains ": " name = false →
  Py.split_once ": " (name +:+ ": " +:+ body) = Some (name, body).
Proof.
  induction name as [|c name IH]; intros Hname; [done|].
  change (String c name +:+ ": " +:+ body)
    with (String c (name +:+ ": " +:+ body)).
  cbn [Py.contains] in Hname.
  apply orb_false_elim in Hname as [Hstart Hname].
  cbn [Py.split_once].
  assert (Py.startswith ": " (String c (name +:+ ": " +:+ body)) = false)
    as ->.
  { cbn [Py.startswith] in Hstart |- *.
    destruct (bool_decide (":"%char = c)); [|done].
    cbn [andb] in Hstart |- *.
    destruct name as [|d name]; [done|].
    change (String d name +:+ ": " +:+ body)
      with (String d (name +:+ ": " +:+ body)).
    cbn [Py.startswith] in Hstart |- *.
    by destruct (bool_decide (" "%char = d)). }
  by rewrite (IH Hname).
Qed.

(** X13. A channel text composed as the sender's name, a colon and a
    space, and the body is split back into that name and that body,
    provided the name holds no colon followed by a space and has at its
    ends no white space, that is, no character that Python's [strip]
    removes; the body may hold anything, further separators included. *)
Theorem split_sender_round_trip (name body : string) :
  Py.contains ": " name = false →
  Py.strip name = name →
  split_sender (name +:+ ": " +:+ body) = (name, body).
Proof.
  intros Hname Hstrip. unfold split_sender.
  rewrite contains_app_r by done.
  by rewrite split_once_name_body, Hstrip.
Qed.

Lemma split_sender_round_trip_witness :
  split_sender "Alice B: re: hello: world" = ("Alice B", "re: hello: world").
Proof.
  apply (split_sender_round_trip "Alice B" "re: hello: world"); reflexivity.
Defined.

(* ================================================================== *)
(** * Connection, loading and commands *)
(* ================================================================== *)

Lemma extend_nil s : extend s [] [] [] = s.
Proof. destruct s. unfold extend. simpl. by rewrite !app_nil_r. Qed.

Lemma extend_extend s c1 w1 k1 c2 w2 k2 :
  extend (extend s c1 w1 k1) c2 w2 k2 = extend s (c1 ++ c2) (w1 ++ w2) (k1 ++ k2).
Proof. unfold extend. simpl. by rewrite !app_assoc. Qed.

Section loading.
Context `{!Transport}.

Lemma call_cases c s :
  match respond (transport_calls s) c with
  | Raises error => call c s = Raise error (extend s [c] [] [])
  | Error => call c s = Done None (extend s [c] [] [])
  | Event p => call c s = Done (Some p) (extend s [c] [] [])
  end.
Proof.
  unfold call, extend. destruct (respond _ _); by rewrite !app_nil_r.
Qed.

Lemma raises_not_never history c error :
  respond history c = Raises error → ¬ never_raises.
Proof. intros Hr Hnever. by apply (Hnever history c error). Qed.


Lemma call_event c s p :
  respond (transport_calls s) c = Event p →
  call c s = Done (Some p) (extend s [c] [] []).
Proof. intros Hr. pose proof (call_cases c s) as Hcall. by rewrite Hr in Hcall. Qed.

Lemma call_raises c s error :
  respond (transport_calls s) c = Raises error →
  call c s = Raise error (extend s [c] [] []).
Proof. intros Hr. pose proof (call_cases c s) as Hcall. by rewrite Hr in Hcall. Qed.

Lemma write_extend x s : write x s = Done tt (extend s [] [x] []).
Proof. unfold write, extend. by rewrite !app_nil_r. Qed.

Lemma register_key_extend k s : register_key k s = Done tt (extend s [] [] [k]).
Proof. unfold register_key, extend. by rewrite !app_nil_r. Qed.

Lemma bind_done {A B} (m : io A) (k : A → io B) s a s' :
  m s = Done a s' → (m ≫= k) s = k a s'.
Proof. intros Hm. unfold mbind, io_bind. by rewrite Hm. Qed.

Lemma bind_raise {A B} (m : io A) (k : A → io B) s error s' :
  m s = Raise error s' → (m ≫= k) s = Raise error s'.
Proof. intros Hm. unfold mbind, io_bind. by rewrite Hm. Qed.

(** One attempt, exceptions caught. *)
Lemma get_channel_key_once idx s :
  ∃ loaded keys,
    try_except (get_channel_key idx) (λ _, ret false) s
    = Done loaded (extend s [GetChannel idx] [] keys)
    ∧ (if loaded
       then ∃ secret, keys = [AddChannelKey idx secret] ∧ length secret = 16
       else keys = [])
    ∧ (gives_no_key (respond (transport_calls s) (GetChannel idx)) →
       loaded = false).
Proof.
  unfold try_except, get_channel_key.
  pose proof (call_cases (GetChannel idx) s) as Hcall.
  destruct (respond _ _) as [error| |p] eqn:Hr.
  - rewrite (bind_raise _ _ _ _ _ Hcall). by exists false, [].
  - rewrite (bind_done _ _ _ _ _ Hcall). by exists false, [].
  - rewrite (bind_done _ _ _ _ _ Hcall). simpl.
    destruct (p_channel_secret p) as [secret|]; [|by exists false, []].
    destruct (decide (16 ≤ length secret)) as [Hlen|Hlen].
    + rewrite (bool_decide_eq_true_2 (16 ≤ _)) by done.
      rewrite bool_decide_eq_true_2 by (intros ->; simpl in Hlen; lia).
      cbn [andb]. 
      rewrite (bind_done _ _ _ _ _ (register_key_extend _ _)).
      exists true, [AddChannelKey idx (take 16 secret)].
      unfold ret. rewrite extend_extend. split_and!; [done| |lia].
      eexists. split; [done|]. rewrite length_take. lia.
    + rewrite (bool_decide_eq_false_2 (16 ≤ _)), andb_false_r by done.
      by exists false, [].
Qed.

(** Strategy 1 for one channel: between one and [attempts] calls of
    [get_channel], the last of which may have loaded a key. *)
Lemma get_channel_key_retry_spec attempts idx s :
  ∃ loaded n keys,
    get_channel_key_retry attempts idx s
    = Done loaded (extend s (replicate n (GetChannel idx)) [] keys)
    ∧ n ≤ attempts
    ∧ (if loaded
       then ∃ secret, keys = [AddChannelKey idx secret] ∧ length secret = 16
       else keys = [] ∧ n = attempts).
Proof.
  revert s. induction attempts as [|attempts IH]; intros s.
  - exists false, 0, []. by rewrite extend_nil.
  - cbn [get_channel_key_retry].
    destruct (get_channel_key_once idx s) as (loaded & keys & Hrun & Hkeys & _).
    rewrite (bind_done _ _ _ _ _ Hrun).
    destruct loaded.
    + exists true, 1, keys. split_and!; [done|lia|done].
    + subst keys.
      destruct (IH (extend s [GetChannel idx] [] []))
        as (loaded & n & keys & -> & Hn & Hkeys).
      exists loaded, (S n), keys. rewrite extend_extend. simpl.
      split_and!; [done|lia|].
      destruct loaded; [done|]. destruct Hkeys as [-> ->]. done.
Qed.


Lemma load_channel_key_spec ch s :
  ∃ n key,
    load_channel_key ch s
    = Done tt (extend s (replicate n (GetChannel ch.1)) [] [key])
    ∧ n ≤ 3 ∧ key_for ch key.
Proof.
  unfold load_channel_key.
  destruct (get_channel_key_retry_spec 3 ch.1 s)
    as (loaded & n & keys & Hrun & Hn & Hkeys).
  rewrite (bind_done _ _ _ _ _ Hrun). destruct loaded.
  - destruct Hkeys as (secret & -> & Hlen).
    exists n, (AddChannelKey ch.1 secret). split_and!; [done|done|].
    right. by exists secret.
  - destruct Hkeys as [-> ->]. rewrite register_key_extend, extend_extend.
    exists 3, (AddChannelKeyFromName ch.1 ch.2). split_and!; [done|lia|by left].
Qed.

Lemma load_channel_keys_loop channels s :
  ∃ calls keys,
    for_each load_channel_key channels s = Done tt (extend s calls [] keys)
    ∧ Forall2 key_for channels keys
    ∧ length calls ≤ 3 * length channels
    ∧ Forall (λ c, ∃ idx, c = GetChannel idx) calls.
Proof.
  revert s. induction channels as [|ch channels IH]; intros s.
  - exists [], []. rewrite extend_nil. split_and!; [done|constructor|simpl; lia|constructor].
  - cbn [for_each].
    destruct (load_channel_key_spec ch s) as (n & key & Hrun & Hn & Hkey).
    rewrite (bind_done _ _ _ _ _ Hrun).
    destruct (IH (extend s (replicate n (GetChannel ch.1)) [] [key]))
      as (calls & keys & -> & Hkeys & Hlen & Hcalls).
    exists (replicate n (GetChannel ch.1) ++ calls), (key :: keys).
    rewrite extend_extend. split_and!; [done|by constructor| |].
    + rewrite length_app, length_replicate. simpl. lia.
    + apply Forall_app. split; [|done].
      apply Forall_replicate. by eexists.
Qed.

Lemma load_channel_keys_spec s :
  ∃ calls keys,
    _load_channel_keys s
    = Done tt (extend s calls [SetStatus status_channel_keys] keys)
    ∧ Forall2 key_for CHANNELS_CONFIG keys
    ∧ length calls ≤ 12
    ∧ Forall (λ c, ∃ idx, c = GetChannel idx) calls.
Proof.
  unfold _load_channel_keys.
  rewrite (bind_done _ _ _ _ _ (write_extend _ _)).
  destruct (load_channel_keys_loop CHANNELS_CONFIG
              (extend s [] [SetStatus status_channel_keys] []))
    as (calls & keys & -> & Hkeys & Hlen & Hcalls).
  exists calls, keys. rewrite extend_extend. done.
Qed.



(** A retry loop that stores the first payload it gets. *)
Lemma retry_spec n c (W : payload → shared_write) s :
  ∃ k ws,
    k ≤ n ∧ length ws ≤ 1 ∧ Forall (λ w, ∃ p, w = W p) ws
    ∧ (retry n c (λ p, write (W p)) s
       = Done tt (extend s (replicate k c) ws [])
       ∨ ∃ error,
           ws = []
           ∧ retry n c (λ p, write (W p)) s
             = Raise error (extend s (replicate k c) [] [])
           ∧ ¬ never_raises).
Proof.
  revert s. induction n as [|n IH]; intros s.
  - exists 0, []. rewrite extend_nil.
    split_and!; [lia|simpl; lia|constructor|by left].
  - cbn [retry]. pose proof (call_cases c s) as Hcall.
    destruct (respond _ _) as [error| |p] eqn:Hr.
    + rewrite (bind_raise _ _ _ _ _ Hcall). exists 1, [].
      split_and!; [lia|simpl; lia|constructor|]. right. exists error.
      split_and!; [done|done|]. by eapply raises_not_never.
    + rewrite (bind_done _ _ _ _ _ Hcall).
      destruct (IH (extend s [c] [] [])) as (k & ws & Hk & Hws & Hall & Hrun).
      exists (S k), ws. split_and!; [lia|done|done|].
      destruct Hrun as [-> | (error & -> & -> & Hnot)]; rewrite extend_extend.
      * by left.
      * right. by exists error.
    + rewrite (bind_done _ _ _ _ _ Hcall), write_extend, extend_extend.
      exists 1, [W p]. split_and!; [lia|simpl; lia| |by left].
      constructor; [by eexists|constructor].
Qed.



Lemma call_ignore c s :
  (∃ error, call c s = Raise error (extend s [c] [] []) ∧ ¬ never_raises)
  ∨ (∃ r, call c s = Done r (extend s [c] [] [])).
Proof.
  pose proof (call_cases c s) as Hcall.
  destruct (respond _ _) as [error| |p] eqn:Hr; [left|right..]; eauto.
  exists error. split; [done|]. by eapply raises_not_never.
Qed.

Lemma replicate_calls_allowed k c (allowed : list transport_call) :
  c ∈ allowed → Forall (λ c, c ∈ allowed) (replicate k c).
Proof. intros Hc. by apply Forall_replicate. Qed.

Local Ltac calls_allowed :=
  repeat first
    [ apply Forall_app_2
    | apply replicate_calls_allowed
    | apply Forall_cons_2
    | apply Forall_nil_2 ];
  apply list_elem_of_In; simpl; auto 6.

(** [_load_data] whatever the transport does. *)
Lemma load_data_spec s :
  ∃ calls writes,
    length calls ≤ 11
    ∧ Forall (λ c, c ∈ [SendAppstart; SendDeviceQuery; GetContacts]) calls
    ∧ Forall loading_write writes
    ∧ (_load_data s = Done tt (extend s calls writes [])
       ∧ SetChannels CHANNELS_CONFIG ∈ writes
       ∨ (∃ error, _load_data s = Raise error (extend s calls writes []))
         ∧ ¬ never_raises).
Proof.
  assert (∀ W : payload → shared_write,
            (∀ p, loading_write (W p)) →
            ∀ ws, Forall (λ w, ∃ p, w = W p) ws → Forall loading_write ws)
    as Hload.
  { intros W HW ws Hws. eapply Forall_impl; [exact Hws|].
    intros ? [p ->]. apply HW. }
  unfold _load_data.
  rewrite (bind_done _ _ _ _ _ (write_extend _ _)).
  destruct (retry_spec 5 SendAppstart UpdateFromAppstart
              (extend s [] [SetStatus status_device_info] []))
    as (k1 & ws1 & Hk1 & _ & Hws1 & Hrun1).
  apply (Hload UpdateFromAppstart (λ _, I)) in Hws1.
  destruct Hrun1 as [Hrun1 | (error & -> & Hrun1 & Hnot)]; last first.
  { rewrite (bind_raise _ _ _ _ _ Hrun1), extend_extend.
    exists (replicate k1 SendAppstart), [SetStatus status_device_info].
    rewrite length_replicate. split_and!; [lia| |by repeat constructor|].
    - calls_allowed.
    - right. split; [by exists error|done]. }
  rewrite (bind_done _ _ _ _ _ Hrun1), extend_extend.
  match goal with
  | |- context [extend s ?c ?w ?k] => set (s1 := extend s c w k)
  end.
  destruct (retry_spec 5 SendDeviceQuery UpdateFromDeviceQuery s1)
    as (k2 & ws2 & Hk2 & _ & Hws2 & Hrun2).
  apply (Hload UpdateFromDeviceQuery (λ _, I)) in Hws2.
  destruct Hrun2 as [Hrun2 | (error & -> & Hrun2 & Hnot)]; last first.
  { rewrite (bind_raise _ _ _ _ _ Hrun2). unfold s1. rewrite extend_extend.
    eexists _, _. split_and!; [| | |right; split; [by exists error|done]].
    - rewrite !length_app, !length_replicate. simpl. lia.
    - calls_allowed.
    - repeat apply Forall_app_2; by repeat constructor. }
  rewrite (bind_done _ _ _ _ _ Hrun2).
  rewrite (bind_done _ _ _ _ _ (write_extend _ _)).
  rewrite (bind_done _ _ _ _ _ (write_extend _ _)).
  rewrite (bind_done _ _ _ _ _ (write_extend _ _)).
  unfold s1. rewrite !extend_extend.
  match goal with
  | |- context [extend s ?c ?w ?k] => set (s2 := extend s c w k)
  end.
  pose proof (call_cases GetContacts s2) as Hcall.
  destruct (respond _ _) as [error| |p] eqn:Hr.
  - rewrite (bind_raise _ _ _ _ _ Hcall). unfold s2. rewrite extend_extend.
    eexists _, _. split_and!;
      [| | |right; split; [by exists error|by eapply raises_not_never]].
    + rewrite !length_app, !length_replicate. simpl. lia.
    + calls_allowed.
    + repeat apply Forall_app_2; by repeat constructor.
  - rewrite (bind_done _ _ _ _ _ Hcall). unfold ret, s2.
    rewrite extend_extend.
    eexists _, _. split_and!; [| | |left; split; [done|]].
    + rewrite !length_app, !length_replicate. simpl. lia.
    + calls_allowed.
    + repeat apply Forall_app_2; by repeat constructor.
    + rewrite !elem_of_app, !elem_of_cons. tauto.
  - rewrite (bind_done _ _ _ _ _ Hcall), write_extend. unfold s2.
    rewrite !extend_extend.
    eexists _, _. split_and!; [| | |left; split; [done|]].
    + rewrite !length_app, !length_replicate. simpl. lia.
    + calls_allowed.
    + repeat apply Forall_app_2; by repeat constructor.
    + rewrite !elem_of_app, !elem_of_cons. tauto.
Qed.


Lemma extend_with_mc s calls writes keys :
  extend (with_mc s) calls writes keys = with_mc (extend s calls writes keys).
Proof. done. Qed.

Lemma subscribe_connected event_type s :
  mc s = true → subscribe event_type s = call (Subscribe event_type) s.
Proof. intros Hmc. unfold subscribe. by rewrite Hmc. Qed.

(** What [_connect] does after [create_ble] has returned the connected
    object. *)
Lemma connect_steps_spec s :
  mc s = true →
  ∃ calls writes keys,
    Forall loading_write writes
    ∧ ((subscribe "CHANNEL_MSG_RECV";;
        subscribe "CONTACT_MSG_RECV";;
        subscribe "RX_LOG_DATA";;
        _load_data;;
        _load_channel_keys;;
        call StartAutoMessageFetching;;
        write (SetConnected true);;
        write (SetStatus status_connected)) s
       = Done tt (extend s calls
                    (writes ++ [SetConnected true; SetStatus status_connected])
                    keys)
       ∧ Forall2 key_for CHANNELS_CONFIG keys
       ∧ SetChannels CHANNELS_CONFIG ∈ writes
       ∨ (∃ error,
            (subscribe "CHANNEL_MSG_RECV";;
             subscribe "CONTACT_MSG_RECV";;
             subscribe "RX_LOG_DATA";;
             _load_data;;
             _load_channel_keys;;
             call StartAutoMessageFetching;;
             write (SetConnected true);;
             write (SetStatus status_connected)) s
            = Raise error (extend s calls writes keys))
         ∧ ¬ never_raises).
Proof.
  intros Hmc.
  pose proof (subscribe_connected "CHANNEL_MSG_RECV" s Hmc) as Hs1.
  destruct (call_ignore (Subscribe "CHANNEL_MSG_RECV") s)
    as [(error & Hc1 & Hnot)|(r1 & Hc1)]; rewrite <- Hs1 in Hc1.
  { rewrite (bind_raise _ _ _ _ _ Hc1). eexists _, [], _.
    split; [constructor|]. right. split; [by exists error|done]. }
  rewrite (bind_done _ _ _ _ _ Hc1).
  pose proof (subscribe_connected "CONTACT_MSG_RECV"
                (extend s [Subscribe "CHANNEL_MSG_RECV"] [] []) Hmc) as Hs2.
  destruct (call_ignore (Subscribe "CONTACT_MSG_RECV")
              (extend s [Subscribe "CHANNEL_MSG_RECV"] [] []))
    as [(error & Hc2 & Hnot)|(r2 & Hc2)]; rewrite <- Hs2 in Hc2.
  { rewrite (bind_raise _ _ _ _ _ Hc2), extend_extend. eexists _, [], _.
    split; [constructor|]. right. split; [by exists error|done]. }
  rewrite (bind_done _ _ _ _ _ Hc2), extend_extend.
  match goal with
  | |- context [extend s ?c ?w ?k] => set (s2 := extend s c w k)
  end.
  pose proof (subscribe_connected "RX_LOG_DATA" s2 Hmc) as Hs3.
  destruct (call_ignore (Subscribe "RX_LOG_DATA") s2)
    as [(error & Hc3 & Hnot)|(r3 & Hc3)]; rewrite <- Hs3 in Hc3.
  { rewrite (bind_raise _ _ _ _ _ Hc3). unfold s2. rewrite extend_extend.
    eexists _, [], _.
    split; [constructor|]. right. split; [by exists error|done]. }
  rewrite (bind_done _ _ _ _ _ Hc3). unfold s2. rewrite extend_extend.
  match goal with
  | |- context [extend s ?c ?w ?k] => set (s3 := extend s c w k)
  end.
  destruct (load_data_spec s3)
    as (calls & writes & _ & _ & Hwrites
        & [[Hload Hchannels] | [[error Hload] Hnot]]); last first.
  { rewrite (bind_raise _ _ _ _ _ Hload). unfold s3. rewrite extend_extend.
    eexists _, _, _. split; [exact Hwrites|].
    right. split; [by exists error|done]. }
  rewrite (bind_done _ _ _ _ _ Hload). unfold s3. rewrite extend_extend.
  match goal with
  | |- context [extend s ?c ?w ?k] => set (s4 := extend s c w k)
  end.
  destruct (load_channel_keys_spec s4)
    as (calls' & keys & Hkeys & Hfor & _ & _).
  rewrite (bind_done _ _ _ _ _ Hkeys). unfold s4. rewrite extend_extend.
  match goal with
  | |- context [extend s ?c ?w ?k] => set (s5 := extend s c w k)
  end.
  destruct (call_ignore StartAutoMessageFetching s5)
    as [(error & Hc4 & Hnot)|(r4 & Hc4)].
  { rewrite (bind_raise _ _ _ _ _ Hc4). unfold s5. rewrite extend_extend.
    eexists _, _, _. split; [|right; split; [by exists error|done]].
    rewrite app_nil_r. apply Forall_app_2; [done|by repeat constructor]. }
  rewrite (bind_done _ _ _ _ _ Hc4).
  rewrite (bind_done _ _ _ _ _ (write_extend _ _)), write_extend.
  unfold s5. rewrite !extend_extend.
  exists ([Subscribe "CHANNEL_MSG_RECV"; Subscribe "CONTACT_MSG_RECV";
           Subscribe "RX_LOG_DATA"] ++ calls ++ calls'
            ++ [StartAutoMessageFetching]).
  exists (writes ++ [SetStatus status_channel_keys]).
  exists keys.
  split; [apply Forall_app_2; [done|by repeat constructor]|].
  left. split_and!.
  - f_equal. unfold extend.
    f_equal; simpl; repeat rewrite app_nil_r; repeat rewrite <- app_assoc;
      done.
  - done.
  - apply elem_of_app. by left.
Qed.

(** X19. [_connect] never raises, publishes no message, queues no
    command and leaves the caches alone, and ends in one of four ways.
    If [create_ble] raises, [mc] is left as it was and the status is the
    failure text.  If [create_ble] returns [None], [mc] is unset, nothing
    more is asked of the transport and the status is the text of the
    [AttributeError] of the first [subscribe].  If a later step raises,
    [mc] is set, the status is the failure text and [set_connected] was
    never called.  Otherwise [mc] is set, the channel table was
    published, every configured channel has a key, and the last two
    writes are [set_connected(True)] and the connected status; this is
    always so when [create_ble] returns the connected object and the
    transport never raises. *)
Theorem connect_outcomes address s :
  ∃ s',
    _connect address s = Done tt s'
    ∧ sess_worker s' = sess_worker s
    ∧ ((∃ error,
          respond (transport_calls s) (CreateBle address) = Raises error
          ∧ s' = extend s [CreateBle address]
                   [SetStatus (status_connecting address);
                    SetStatus (status_failed error)] [])
       ∨ (respond (transport_calls s) (CreateBle address) = Error
          ∧ s' = without_mc
                   (extend s [CreateBle address]
                      [SetStatus (status_connecting address);
                       SetStatus (status_failed none_has_no_subscribe)] []))
       ∨ (∃ calls writes keys error,
            s' = with_mc
                   (extend s (CreateBle address :: calls)
                      (SetStatus (status_connecting address)
                         :: writes ++ [SetStatus (status_failed error)])
                      keys)
            ∧ Forall loading_write writes
            ∧ ¬ never_raises)
       ∨ (∃ calls writes keys,
            s' = with_mc
                   (extend s (CreateBle address :: calls)
                      (SetStatus (status_connecting address)
                         :: writes
                         ++ [SetConnected true; SetStatus status_connected])
                      keys)
            ∧ Forall loading_write writes
            ∧ SetChannels CHANNELS_CONFIG ∈ writes
            ∧ Forall2 key_for CHANNELS_CONFIG keys)).
Proof.
  unfold _connect.
  rewrite (bind_done _ _ _ _ _ (write_extend _ _)).
  unfold try_except.
  set (s0 := extend s [] [SetStatus (status_connecting address)] []).
  assert (transport_calls s0 = transport_calls s) as Hcalls.
  { unfold s0. simpl. by rewrite app_nil_r. }
  pose proof (call_cases (CreateBle address) s0) as Hc.
  rewrite Hcalls in Hc.
  destruct (respond (transport_calls s) (CreateBle address))
    as [error| |p] eqn:Hr.
  - rewrite (bind_raise _ _ _ _ _ Hc), write_extend. unfold s0.
    rewrite !extend_extend.
    eexists. split_and!; [done|done|]. left. by exists error.
  - rewrite (bind_done _ _ _ _ _ Hc). unfold s0. rewrite extend_extend.
    match goal with
    | |- context [extend s ?c ?w ?k] => set (s1 := extend s c w k)
    end.
    assert (set_mc (bool_decide (is_Some (@None payload))) s1
            = Done tt (without_mc s1)) as Hmc by done.
    rewrite (bind_done _ _ _ _ _ Hmc).
    assert (subscribe "CHANNEL_MSG_RECV" (without_mc s1)
            = Raise none_has_no_subscribe (without_mc s1)) as Hsub by done.
    rewrite (bind_raise _ _ _ _ _ Hsub), write_extend.
    eexists. split_and!; [done|done|]. right. left. split; [done|].
    unfold s1, without_mc, extend. simpl.
    by rewrite !app_nil_r, <- app_assoc.
  - rewrite (bind_done _ _ _ _ _ Hc). unfold s0. rewrite extend_extend.
    match goal with
    | |- context [extend s ?c ?w ?k] => set (s1 := extend s c w k)
    end.
    assert (set_mc (bool_decide (is_Some (Some p))) s1
            = Done tt (with_mc s1)) as Hmc by done.
    rewrite (bind_done _ _ _ _ _ Hmc).
    destruct (connect_steps_spec (with_mc s1) eq_refl)
      as (calls & writes & keys & Hwrites
          & [(-> & Hkeys & Hchannels) | [[error ->] Hnot]]).
    + eexists. split_and!; [done|done|]. right. right. right.
      exists calls, writes, keys. unfold s1.
      rewrite extend_with_mc, extend_extend. done.
    + rewrite write_extend, extend_extend.
      eexists. split_and!; [done|done|]. right. right. left.
      exists calls, writes, keys, error. unfold s1.
      rewrite extend_with_mc, !extend_extend. split_and!; [|done|done].
      simpl. by rewrite !app_nil_r.
Qed.

Lemma publish_with_message m s : publish m s = Done tt (with_message m s).
Proof. done. Qed.

(** X20. While [mc] is unset every command is dropped without a trace:
    whatever the queue holds, processing it calls nothing, publishes
    nothing and never raises. *)
Theorem offline_commands_dropped queue s :
  mc s = false → _process_commands queue s = Done tt s.
Proof.
  intros Hmc. unfold _process_commands.
  induction queue as [|[clock cmd] queue IH]; [done|].
  cbn [for_each].
  assert (_handle_command clock cmd s = Done tt s) as Hone.
  { unfold _handle_command. rewrite Hmc, !andb_false_r.
    by repeat case_bool_decide. }
  by rewrite (bind_done _ _ _ _ _ Hone).
Qed.

Local Ltac unchanged :=
  simpl; rewrite ?app_nil_r; split_and!; try done;
  exists nil; rewrite app_nil_r; split_and!; [done|simpl; lia|constructor].

(** X21. Handling a command, whatever it is and whatever the device
    answers, leaves both dedup caches, the cooldown timestamp, the RX
    log, the decoder keys and [mc] as they were and queues no command; it
    publishes at most one message, and that one is a local echo: from
    [Me], outbound, with no path and no message hash.  Outbound messages
    thus bypass deduplication altogether. *)
Theorem handle_command_frame clock cmd s :
  let s' := final (_handle_command clock cmd s) in
  let w := sess_worker s in
  let w' := sess_worker s' in
  hash_cache w' = hash_cache w
  ∧ content_cache w' = content_cache w
  ∧ commands w' = commands w
  ∧ _bot_last_reply w' = _bot_last_reply w
  ∧ rx_log w' = rx_log w
  ∧ decoder_keys s' = decoder_keys s
  ∧ mc s' = mc s
  ∧ ∃ ms, messages w' = messages w ++ ms
          ∧ length ms ≤ 1 ∧ Forall is_local_echo ms.
Proof.
  cbv zeta. unfold _handle_command.
  case_bool_decide as Ha1.
  { destruct (Py.truthy _ && mc s); [|unchanged].
    destruct (call_ignore
                (SendChanMsg (default 0%Z (cd_channel cmd))
                   (default "" (cd_text cmd))) s)
      as [(error & Hc & _)|(r & Hc)].
    - rewrite (bind_raise _ _ _ _ _ Hc). unchanged.
    - rewrite (bind_done _ _ _ _ _ Hc).
      destruct (negb _); [|unchanged].
      rewrite publish_with_message. simpl. rewrite ?app_nil_r.
      split_and!; try done.
      eexists [_]. split_and!; [done|simpl; lia|by repeat constructor]. }
  case_bool_decide as Ha2.
  { destruct (mc s) eqn:Hmc; [|unchanged].
    destruct (call_ignore (SendAdvert true) s) as [(error & Hc & _)|(r & Hc)].
    - rewrite (bind_raise _ _ _ _ _ Hc). unchanged.
    - rewrite (bind_done _ _ _ _ _ Hc), write_extend. unchanged. }
  case_bool_decide as Ha3.
  { destruct (_ && mc s); [|unchanged].
    destruct (call_ignore
                (SendMsg (default "" (cd_pubkey cmd))
                   (default "" (cd_text cmd))) s)
      as [(error & Hc & _)|(r & Hc)].
    - rewrite (bind_raise _ _ _ _ _ Hc). unchanged.
    - rewrite (bind_done _ _ _ _ _ Hc), publish_with_message. simpl.
      rewrite ?app_nil_r. split_and!; try done.
      eexists [_]. split_and!; [done|simpl; lia|by repeat constructor]. }
  case_bool_decide as Ha4; [|unchanged].
  destruct (mc s) eqn:Hmc; [|unchanged].
  destruct (load_data_spec s)
    as (calls & writes & _ & _ & _ & [[-> _] | [[error ->] _]]);
    unchanged.
Qed.

(** X22. A [send_message] command with a non-empty text, on a connected
    worker, makes exactly one [send_chan_msg] call (channel 0 when the
    command names none).  If the call raises, nothing is published.
    Otherwise, also when the device answers [ERROR], a command not tagged
    [_bot] publishes its local echo, and a tagged one publishes
    nothing. *)
Theorem send_message_echo clock cmd s :
  mc s = true →
  cd_action cmd = Some "send_message" →
  default "" (cd_text cmd) ≠ "" →
  let channel := default 0%Z (cd_channel cmd) in
  let text := default "" (cd_text cmd) in
  match respond (transport_calls s) (SendChanMsg channel text) with
  | Raises error =>
      _handle_command clock cmd s
      = Raise error (extend s [SendChanMsg channel text] [] [])
  | _ =>
      _handle_command clock cmd s
      = Done tt
          (if default false (cd_bot cmd)
           then extend s [SendChanMsg channel text] [] []
           else with_message (sent_message clock text (Some channel) "")
                  (extend s [SendChanMsg channel text] [] []))
  end.
Proof.
  intros Hmc Haction Htext. cbv zeta. unfold _handle_command.
  rewrite Haction, bool_decide_eq_true_2, Hmc by done.
  assert (Py.truthy (default "" (cd_text cmd)) = true) as ->.
  { by destruct (default "" (cd_text cmd)). }
  cbn [andb].
  pose proof (call_cases (SendChanMsg (default 0%Z (cd_channel cmd))
                            (default "" (cd_text cmd))) s) as Hcall.
  destruct (respond _ _) as [error| |p].
  - by rewrite (bind_raise _ _ _ _ _ Hcall).
  - rewrite (bind_done _ _ _ _ _ Hcall). by destruct (default false _).
  - rewrite (bind_done _ _ _ _ _ Hcall). by destruct (default false _).
Qed.

End loading.




Lemma connect_outcomes_witness :
  (∃ s', @_connect good_transport "C2:2B:A1:D5:3E:B6" (offline init)
         = Done tt s'
         ∧ mc s' = true
         ∧ SetConnected true ∈ shared_writes s'
         ∧ length (decoder_keys s') = 4)
  ∧ (∃ s', @_connect dead_transport "C2:2B:A1:D5:3E:B6" (with_mc (offline init))
           = Done tt s'
           ∧ mc s' = false
           ∧ transport_calls s' = [CreateBle "C2:2B:A1:D5:3E:B6"]
           ∧ last (shared_writes s')
             = Some (SetStatus (status_failed none_has_no_subscribe))).
Proof.
  split.
  - assert (@never_raises good_transport) as Hgood.
    { intros history c error. discriminate. }
    destruct (@connect_outcomes good_transport "C2:2B:A1:D5:3E:B6"
                (offline init))
      as (s' & Hrun & _
          & [(error & Hbad & _)
             | [(Hbad & _)
                | [(calls & writes & keys & error & _ & _ & Hbad)
                   | (calls & writes & keys & -> & _ & _ & Hkeys)]]]).
    + discriminate Hbad.
    + discriminate Hbad.
    + destruct (Hbad Hgood).
    + eexists. split; [exact Hrun|]. split; [reflexivity|]. split.
      * cbn [shared_writes with_mc extend offline app].
        apply elem_of_cons. right. apply elem_of_app. right.
        apply list_elem_of_here.
      * cbn [decoder_keys with_mc extend offline app].
        by rewrite <- (Forall2_length _ _ _ Hkeys).
  - assert (@never_raises dead_transport) as Hdead.
    { intros history c error. discriminate. }
    destruct (@connect_outcomes dead_transport "C2:2B:A1:D5:3E:B6"
                (with_mc (offline init)))
      as (s' & Hrun & _
          & [(error & Hbad & _)
             | [(_ & ->)
                | [(calls & writes & keys & error & _ & _ & Hbad)
                   | (calls & writes & keys & Hend & _ & _ & _)]]]).
    + discriminate Hbad.
    + eexists. split; [exact Hrun|]. by split_and!.
    + destruct (Hbad Hdead).
    + exfalso. rewrite Hend in Hrun. vm_compute in Hrun. discriminate Hrun.
Defined.

Lemma offline_commands_dropped_witness :
  @_process_commands broken_transport
    [("12:00:00",
      {| cd_action := Some "send_message"; cd_channel := Some 1%Z;
         cd_text := Some "hello"; cd_bot := None; cd_pubkey := None;
         cd_contact_name := None |});
     ("12:00:01",
      {| cd_action := Some "refresh"; cd_channel := None; cd_text := None;
         cd_bot := None; cd_pubkey := None; cd_contact_name := None |})]
    (offline init)
  = Done tt (offline init).
Proof. apply (@offline_commands_dropped broken_transport). reflexivity. Defined.

Lemma send_message_echo_witness :
  let cmd := {| cd_action := Some "send_message"; cd_channel := None;
                cd_text := Some "hello"; cd_bot := None; cd_pubkey := None;
                cd_contact_name := None |} in
  messages
    (sess_worker
       (final (@_handle_command dead_transport "12:00:00" cmd
                 (with_mc (offline init)))))
  = [sent_message "12:00:00" "hello" (Some 0%Z) ""].
Proof.
  intros cmd.
  pose proof (@send_message_echo dead_transport "12:00:00" cmd
                (with_mc (offline init)) eq_refl eq_refl) as Hsend.
  cbv zeta in Hsend. cbn [respond dead_transport] in Hsend.
  rewrite Hsend; [reflexivity|]. discriminate.
Defined.

(* ================================================================== *)
(** * Further properties of route reconstruction *)
(* ================================================================== *)

Lemma hop_groups_ok out_path :
  Forall (λ h, String.length h = 2) (hop_groups out_path).
Proof.
  remember (String.length out_path) as size eqn:Hsize.
  revert out_path Hsize.
  induction size as [size IH] using lt_wf_ind. intros out_path ->.
  destruct out_path as [|a [|b rest]]; [constructor..|].
  cbn [hop_groups]. constructor; [done|].
  apply (IH (String.length rest)); [simpl; lia|done].
Qed.

Lemma hop_groups_length out_path :
  length (hop_groups out_path) = String.length out_path / 2.
Proof.
  remember (String.length out_path) as size eqn:Hsize.
  revert out_path Hsize.
  induction size as [size IH] using lt_wf_ind. intros out_path ->.
  destruct out_path as [|a [|b rest]]; [done..|].
  cbn [hop_groups length String.length].
  rewrite (IH (String.length rest)) by (simpl; lia || done).
  change (S (S (String.length rest))) with (1 * 2 + String.length rest).
  rewrite Nat.div_add_l by lia. lia.
Qed.

(** X24. The hops [_parse_out_path] returns are, in order, the first
    [out_path_len] complete two-character groups of [out_path], none left
    out: their number is the smaller of [out_path_len] and half the
    length of [out_path], so a route string that is too short gives fewer
    hops than declared, and a non-positive [out_path_len] gives none. *)
Theorem parse_out_path_hops out_path out_path_len contacts :
  let hops := _parse_out_path out_path out_path_len contacts in
  n_pubkey <$> hops = take (Z.to_nat out_path_len) (hop_groups out_path)
  ∧ length hops = Z.to_nat out_path_len `min` (String.length out_path / 2).
Proof.
  cbv zeta. unfold _parse_out_path.
  rewrite out_path_hashes_groups, resolve_hashes_filter.
  assert (Forall (λ h, hop_hash_ok h = true)
            (take (Z.to_nat out_path_len) (hop_groups out_path))) as Hok.
  { apply Forall_take. eapply Forall_impl; [apply hop_groups_ok|].
    simpl. intros h Hh. apply hop_hash_ok_length. lia. }
  rewrite filter_all_ok by done. split.
  - rewrite <- list_fmap_compose.
    rewrite <- (list_fmap_id (take _ _)) at 2.
    apply list_fmap_ext. intros _ h _. apply resolve_hop_pubkey.
  - by rewrite length_fmap, length_take, hop_groups_length.
Qed.

Lemma lower_upper_char c : Py.lower_char (Py.upper_char c) = Py.lower_char c.
Proof. by destruct c as [[] [] [] [] [] [] [] []]. Qed.

Lemma lower_upper s : Py.lower (Py.upper s) = Py.lower s.
Proof.
  induction s as [|c s IH]; [done|].
  unfold Py.lower, Py.upper in *. cbn [Py.map_chars].
  by rewrite lower_upper_char, IH.
Qed.

(** X25. [_find_contact_by_pubkey_hash] ignores letter case, in the hash
    and in the contacts' keys, and resolves collisions by position: it
    returns the contact of the first key, in the dict's order, that
    starts with the hash, also when later keys start with it too; and
    [None] when no key does. *)
Theorem find_contact_first_match hash_hex contacts :
  (_find_contact_by_pubkey_hash (Py.upper hash_hex) contacts
   = _find_contact_by_pubkey_hash hash_hex contacts)
  ∧ (_find_contact_by_pubkey_hash hash_hex
       ((λ kv : string * contact, (Py.upper kv.1, kv.2)) <$> contacts)
     = _find_contact_by_pubkey_hash hash_hex contacts)
  ∧ (∀ before pubkey c after,
       contacts = before ++ (pubkey, c) :: after →
       Forall (λ kv, Py.startswith (Py.lower hash_hex) (Py.lower kv.1) = false)
         before →
       Py.startswith (Py.lower hash_hex) (Py.lower pubkey) = true →
       _find_contact_by_pubkey_hash hash_hex contacts = Some c)
  ∧ (Forall (λ kv, Py.startswith (Py.lower hash_hex) (Py.lower kv.1) = false)
       contacts →
     _find_contact_by_pubkey_hash hash_hex contacts = None).
Proof.
  unfold _find_contact_by_pubkey_hash. split_and!.
  - by rewrite lower_upper.
  - induction contacts as [|[pubkey c] contacts IH]; [done|].
    cbn [fmap list_fmap List.find fst snd]. rewrite lower_upper.
    destruct (Py.startswith _ _); [done|]. apply IH.
  - intros before pubkey c after -> Hbefore Hmatch.
    induction Hbefore as [|kv before Hkv _ IH]; simpl.
    + by rewrite Hmatch.
    + by rewrite Hkv.
  - induction 1 as [|kv rest Hkv _ IH]; [done|]. simpl. by rewrite Hkv.
Qed.

Section route.
Context `{!ContactLookup}.

(** X26. Without evidence there is no route: for a message with no
    [path_hashes] whose sender lookup leaves no contact, or a contact
    whose stored [out_path] is missing or empty or whose [out_path_len]
    is missing, zero or negative, [build] returns no path nodes and the
    source [none], and keeps the hop count of the message (0 when the
    message has none). *)
Theorem route_without_evidence msg data :
  m_path_hashes msg = [] →
  ((lookup_sender msg).2 = None
   ∨ ∃ c, (lookup_sender msg).2 = Some c
          ∧ (default "" (c_out_path c) = ""
             ∨ (default 0 (c_out_path_len c) ≤ 0)%Z)) →
  r_path_nodes (build msg data) = []
  ∧ r_path_source (build msg data) = "none"
  ∧ r_msg_path_len (build msg data) = default 0%Z (m_path_len msg).
Proof.
  intros Hempty Hcontact.
  pose proof (build_path msg data) as Hbuild.
  unfold resolve_path in Hbuild. rewrite Hempty in Hbuild.
  assert (r_msg_path_len (build msg data) = default 0%Z (m_path_len msg))
    as Hlen.
  { unfold build. destruct (lookup_sender msg). by destruct (resolve_path _ _ _). }
  destruct Hcontact as [Hnone | (c & Hsome & Hroute)].
  - rewrite Hnone in Hbuild. by injection Hbuild as -> ->.
  - rewrite Hsome in Hbuild.
    destruct (contact_truthy c); [|by injection Hbuild as -> ->].
    destruct Hroute as [Hpath | Hcount].
    + rewrite Hpath in Hbuild. by injection Hbuild as -> ->.
    + destruct (Py.truthy _); [|by injection Hbuild as -> ->].
      destruct (decide (default 0 (c_out_path_len c) = 0)%Z) as [Hz|Hz].
      * rewrite bool_decide_eq_true_2 in Hbuild by done.
        by injection Hbuild as -> ->.
      * rewrite (bool_decide_eq_false_2 (0 < _)%Z), andb_false_r in Hbuild
          by lia.
        by injection Hbuild as -> ->.
Qed.
End route.

(** X27. When the message carries a sender key, the route is built from
    the lookup by key alone: the lookup by name is never consulted, so
    two contact stores that agree on [get_contact_by_prefix] give the
    same route, whatever their names say. *)
Theorem sender_lookup_prefers_pubkey (store1 store2 : ContactLookup) msg data :
  m_sender_pubkey msg ≠ "" →
  (∀ prefix, @get_contact_by_prefix store1 prefix
             = @get_contact_by_prefix store2 prefix) →
  @build store1 msg data = @build store2 msg data.
Proof.
  intros Hkey Hsame. unfold build, lookup_sender.
  assert (Py.truthy (m_sender_pubkey msg) = true) as ->.
  { by destruct (m_sender_pubkey msg). }
  by rewrite Hsame.
Qed.

Section route2.
Context `{!ContactLookup}.
(** X28. [has_locations] is true exactly when the local node, the
    resolved sender or one of the path nodes has a latitude or longitude
    other than zero. *)
Theorem has_locations_iff msg data :
  r_has_locations (build msg data) = true
  ↔ has_location (s_adv_lat data) (s_adv_lon data) = true
    ∨ (∃ sender, r_sender (build msg data) = Some sender
                 ∧ has_location (n_lat sender) (n_lon sender) = true)
    ∨ (∃ hop, hop ∈ r_path_nodes (build msg data)
              ∧ has_location (n_lat hop) (n_lon hop) = true).
Proof.
  unfold build. destruct (lookup_sender msg) as [sender sender_contact].
  destruct (resolve_path _ _ _) as [path_nodes path_source]. simpl.
  rewrite orb_true_iff.
  assert (existsb (λ p : float * float, has_location p.1 p.2)
            ((λ p, (n_lat p, n_lon p)) <$> path_nodes) = true
          ↔ ∃ hop, hop ∈ path_nodes
                   ∧ has_location (n_lat hop) (n_lon hop) = true) as Hhops.
  { rewrite existsb_exists. split.
    - intros ([lat lon] & Hin & Hloc).
      apply list_elem_of_In, list_elem_of_fmap in Hin as (hop & [= -> ->] & Hin).
      by exists hop.
    - intros (hop & Hin & Hloc). exists (n_lat hop, n_lon hop). split; [|done].
      apply list_elem_of_In, list_elem_of_fmap. by exists hop. }
  destruct sender as [sender|]; simpl.
  - rewrite orb_true_iff, Hhops. split.
    + intros [?|[?|?]]; [by left| |by right; right].
      right. left. by exists sender.
    + intros [?|[(sender' & [= <-] & ?)|?]]; [by left| |by right; right].
      right. by left.
  - rewrite Hhops. split.
    + intros [?|?]; [by left|by right; right].
    + intros [?|[(sender' & [=] & ?)|?]]; [by left|by right].
Qed.
End route2.

Lemma find_contact_first_match_witness :
  _find_contact_by_pubkey_hash "8d" (s_contacts example_snapshot)
  = Some example_repeater.
Proof.
  destruct (find_contact_first_match "8d" (s_contacts example_snapshot))
    as (_ & _ & Hfirst & _).
  apply (Hfirst [("c4f1a0", example_contact)] "8D17e2" example_repeater []).
  - reflexivity.
  - repeat constructor.
  - reflexivity.
Defined.

Lemma route_without_evidence_witness :
  r_path_source (@build no_contacts (example_message []) example_snapshot)
  = "none".
Proof.
  apply (@route_without_evidence no_contacts (example_message [])
           example_snapshot).
  - reflexivity.
  - left. reflexivity.
Defined.

Lemma sender_lookup_prefers_pubkey_witness :
  @build example_store (example_message []) example_snapshot
  = @build example_store_by_key (example_message []) example_snapshot.
Proof.
  apply sender_lookup_prefers_pubkey.
  - discriminate.
  - intros prefix. reflexivity.
Defined.

(* ================================================================== *)
(** * Direct messages, and the bot's replies on their way out *)
(* ================================================================== *)





(** X23. A reply of the bot goes out once and is not echoed locally: any
    command the callbacks have queued, when it is handled on a connected
    worker and the call does not raise, makes exactly one [send_chan_msg]
    call, for [BOT_CHANNEL] and with the queued text, and publishes no
    message; the reply reaches the message list only through its radio
    echo. *)
Theorem bot_reply_sent_not_echoed
    `{!ContactLookup, !PacketDecoder, !FloatFormat, !Transport}
    (evs : list event) (c : command) (clock : string) (s : session) :
  c ∈ commands (run init evs) →
  mc s = true →
  (∀ error,
     respond (transport_calls s) (SendChanMsg BOT_CHANNEL (cmd_text c))
     ≠ Raises error) →
  _handle_command clock (command_to_dict c) s
  = Done tt (extend s [SendChanMsg BOT_CHANNEL (cmd_text c)] [] []).
Proof.
  intros Hc Hmc Hok.
  apply queued_commands_bot in Hc as [Hc|(Haction & Hchannel & Hbot & Hname)].
  { by apply elem_of_nil in Hc. }
  unfold _handle_command, command_to_dict. simpl.
  rewrite Haction, Hchannel, Hbot, Hmc.
  rewrite bool_decide_eq_true_2 by done.
  assert (Py.truthy (cmd_text c) = true) as ->.
  { by destruct (cmd_text c). }
  cbn [andb negb].
  pose proof (call_cases (SendChanMsg BOT_CHANNEL (cmd_text c)) s) as Hcall.
  destruct (respond _ _) as [error| |payload] eqn:Hr.
  - by destruct (Hok error).
  - by rewrite (bind_done _ _ _ _ _ Hcall).
  - by rewrite (bind_done _ _ _ _ _ Hcall).
Qed.

Lemma bot_reply_sent_not_echoed_witness :
  let c := {| cmd_action := "send_message"; cmd_channel := 1;
              cmd_text := "Zwolle Bot: Pong!"; cmd_bot := true |} in
  @_handle_command dead_transport "12:00:01" (command_to_dict c)
    (with_mc (offline init))
  = Done tt (extend (with_mc (offline init))
               [SendChanMsg 1 "Zwolle Bot: Pong!"] [] []).
Proof.
  intros c.
  apply (@bot_reply_sent_not_echoed no_contacts (decoder_of example_packet)
           format_stub dead_transport
           [RxLogData (example_env 100) example_rx] c).
  - vm_compute. apply list_elem_of_here.
  - reflexivity.
  - intros error. discriminate.
Defined.
